(** * mailsorter: a deduplicated, date-partitioned mail archive

    Shallow embedding of [src/mailsorter/archive.py] and proofs of the
    properties its specification states.

    Layout of the development:
    - [Py]: the Python built-ins the code relies on (string methods, [int],
      [%] formatting);
    - [Hashlib]: the MD5 digest behind the fingerprints;
    - [Datetime]: the proleptic Gregorian arithmetic of [datetime] and
      [calendar.timegm];
    - [EmailUtils]: [email.utils.parsedate_tz] and [mktime_tz];
    - [Archive]: the repository's own code: [MailArchive], [process] and
      [export], as state-passing functions on an explicit archive
      directory, with Python exceptions as an error result.

    Text is modelled as [string], one [ascii] per byte. A message is
    held as the mail parser holds it after reading it from bytes: header
    names are ASCII, and a byte outside ASCII in a header value or in the
    body (which the parser keeps as a surrogate escape) stands for itself.
    Text outside ASCII that the program itself produces is written as its
    UTF-8 bytes. Python integers are unbounded, hence [Z]. *)

From Stdlib Require Import ZArith Ascii String.
From stdpp Require Import gmap strings list pretty.

Local Open Scope string_scope.
Local Open Scope Z_scope.
Local Open Scope list_scope.

(** ** Exceptions and results *)

(** The exception classes that occur in the modelled code paths.
    [DuplicateError] and [UndatedError] are the two classes the repository
    declares; the others are Python's. [AttributeError] is what a method
    call on an object that lacks the method raises. [DateRangeError]
    stands for what the [datetime] library raises for a timestamp outside
    the years 1..9999 ([ValueError], [OverflowError] or [OSError]
    depending on magnitude and platform; none of them is caught anywhere
    in the repository). *)
Inductive exn : Type :=
| DuplicateError
| UndatedError
| KeyError
| UnicodeDecodeError
| IndexError
| ValueError
| TypeError
| AttributeError
| DateRangeError
| OtherError (what : string).

#[global] Instance exn_eq_dec : EqDecision exn.
Proof. solve_decision. Defined.

Inductive result (A : Type) : Type :=
| Ok (a : A)
| Raise (e : exn).
Arguments Ok {A} a.
Arguments Raise {A} e.

#[global] Instance result_eq_dec {A : Type} `{EqDecision A} : EqDecision (result A).
Proof. solve_decision. Defined.

#[global] Instance result_ret : MRet result := fun A a => Ok a.
#[global] Instance result_bind : MBind result := fun A B k r =>
  match r with
  | Ok a => k a
  | Raise e => Raise e
  end.

(** ** Python built-ins *)
Module Py.

Definition ord (c : ascii) : N := N_of_ascii c.

(** [str.lower] and [str.upper] on ASCII letters. *)
Definition chr_lower (c : ascii) : ascii :=
  if ((65 <=? ord c) && (ord c <=? 90))%N then ascii_of_N (ord c + 32) else c.

Definition chr_upper (c : ascii) : ascii :=
  if ((97 <=? ord c) && (ord c <=? 122))%N then ascii_of_N (ord c - 32) else c.

Fixpoint str_map (f : ascii -> ascii) (s : string) : string :=
  match s with
  | EmptyString => EmptyString
  | String c s' => String (f c) (str_map f s')
  end.

Definition lower : string -> string := str_map chr_lower.
Definition upper : string -> string := str_map chr_upper.

(** [str.isspace] for one ASCII character: TAB, LF, VT, FF, CR, the four
    separators FS, GS, RS, US, and the blank. *)
Definition isspace (c : ascii) : bool :=
  (((9 <=? ord c) && (ord c <=? 13)) || ((28 <=? ord c) && (ord c <=? 32)))%N.

(** [str.isdigit] for one ASCII character. *)
Definition isdigit (c : ascii) : bool :=
  ((48 <=? ord c) && (ord c <=? 57))%N.

Definition digit_val (c : ascii) : Z := Z.of_N (ord c) - 48.

(** The fields of [s] between the characters selected by [sep]; never
    empty: a string without separator is its own single field. *)
Fixpoint fields (sep : ascii -> bool) (s : string) : list string :=
  match s with
  | EmptyString => [EmptyString]
  | String c s' =>
      if sep c then EmptyString :: fields sep s'
      else match fields sep s' with
           | w :: ws => String c w :: ws
           | [] => [String c EmptyString]
           end
  end.

Definition nonempty (s : string) : bool :=
  match s with EmptyString => false | String _ _ => true end.

(** [s.split()]: maximal runs of non-blank characters. *)
Definition split_ws (s : string) : list string :=
  List.filter nonempty (fields isspace s).

(** [s.split(c)] for a one-character separator. *)
Definition split_chr (c : ascii) (s : string) : list string :=
  fields (Ascii.eqb c) s.

(** [s.find(c)] and [s.rfind(c)]: an index, or [-1]. *)
Fixpoint find (c : ascii) (s : string) : Z :=
  match s with
  | EmptyString => -1
  | String a s' =>
      if Ascii.eqb a c then 0
      else let i := find c s' in if i <? 0 then -1 else i + 1
  end.

Fixpoint rfind (c : ascii) (s : string) : Z :=
  match s with
  | EmptyString => -1
  | String a s' =>
      let i := rfind c s' in
      if 0 <=? i then i + 1 else if Ascii.eqb a c then 0 else -1
  end.

(** [c in s] for a one-character [c]. *)
Definition contains_chr (c : ascii) (s : string) : bool := 0 <=? find c s.

(** Slices [s[n:]] and [s[:n]] for [n >= 0]. *)
Fixpoint slice_from (n : nat) (s : string) : string :=
  match n, s with
  | O, _ => s
  | S n', String _ s' => slice_from n' s'
  | S _, EmptyString => EmptyString
  end.

Fixpoint slice_to (n : nat) (s : string) : string :=
  match n, s with
  | O, _ => EmptyString
  | S n', String c s' => String c (slice_to n' s')
  | S _, EmptyString => EmptyString
  end.

(** [s[0]] and [s[-1]]: [IndexError] on the empty string. *)
Definition first_chr (s : string) : result ascii :=
  match s with
  | EmptyString => Raise IndexError
  | String c _ => Ok c
  end.

Fixpoint last_chr (s : string) : result ascii :=
  match s with
  | EmptyString => Raise IndexError
  | String c EmptyString => Ok c
  | String _ s' => last_chr s'
  end.

(** [s[:-1]]. *)
Fixpoint drop_last (s : string) : string :=
  match s with
  | EmptyString => EmptyString
  | String _ EmptyString => EmptyString
  | String c s' => String c (drop_last s')
  end.

Definition endswith_chr (c : ascii) (s : string) : bool :=
  match last_chr s with
  | Ok a => Ascii.eqb a c
  | Raise _ => false
  end.

Definition startswith_chr (c : ascii) (s : string) : bool :=
  match s with
  | String a _ => Ascii.eqb a c
  | EmptyString => false
  end.

(** [s.strip()]. *)
Fixpoint lstrip (s : string) : string :=
  match s with
  | String c s' => if isspace c then lstrip s' else s
  | EmptyString => EmptyString
  end.

Definition strip (s : string) : string :=
  String.rev (lstrip (String.rev (lstrip s))).

(** [int(s)] in base 10: blanks around, an optional sign, then digits,
    where single underscores may separate digits. [None] is [ValueError].
    (The interpreter's limit on the number of digits is not modelled.) *)
Fixpoint int_digits (acc : Z) (after_digit : bool) (s : string) : option Z :=
  match s with
  | EmptyString => if after_digit then Some acc else None
  | String c s' =>
      if isdigit c then int_digits (10 * acc + digit_val c) true s'
      else if Ascii.eqb c "_"
           then if after_digit then int_digits acc false s' else None
           else None
  end.

Definition int (s : string) : option Z :=
  match strip s with
  | String "+" r => int_digits 0 false r
  | String "-" r => Z.opp <$> int_digits 0 false r
  | r => int_digits 0 false r
  end.

(** ["%d" % n]. *)
Definition fmt_d (n : Z) : string := pretty n.

Fixpoint zeros (n : nat) : string :=
  match n with
  | O => EmptyString
  | S n' => String "0" (zeros n')
  end.

(** ["%0wd" % n]: the sign, if any, counts in the width. *)
Definition fmt_0d (w : nat) (n : Z) : string :=
  if n <? 0
  then let d := pretty (- n) in
       "-" +:+ zeros (w - 1 - String.length d) +:+ d
  else let d := pretty n in
       zeros (w - String.length d) +:+ d.

(** The line feed, ['\n']. *)
Definition LF : string := String "010" EmptyString.

(** [sep.join(l)]. *)
Fixpoint join (sep : string) (l : list string) : string :=
  match l with
  | [] => EmptyString
  | [s] => s
  | s :: l' => s +:+ sep +:+ join sep l'
  end.

(** [s in l] for a list of strings. *)
Definition in_list (s : string) (l : list string) : bool :=
  bool_decide (s ∈ l).

(** Bytes outside ASCII. In a [str] obtained from the mail parser such a
    byte is a surrogate escape: [has_surrogates] is
    [email.utils._has_surrogates]. *)
Definition is_8bit (c : ascii) : bool := (128 <=? ord c)%N.

Fixpoint has_surrogates (s : string) : bool :=
  match s with
  | EmptyString => false
  | String c s' => is_8bit c || has_surrogates s'
  end.

(** U+FFFD, the replacement character, in UTF-8. *)
Definition REPLACEMENT : string :=
  String "239" (String "191" (String "189" EmptyString)).

(** [s.encode('ascii', 'surrogateescape').decode('ascii', 'replace')]:
    every byte outside ASCII becomes the replacement character. *)
Fixpoint decode_replace (s : string) : string :=
  match s with
  | EmptyString => EmptyString
  | String c s' =>
      if is_8bit c then REPLACEMENT +:+ decode_replace s'
      else String c (decode_replace s')
  end.

(** [l.index(s)]: position of the first occurrence. *)
Fixpoint index_of (s : string) (l : list string) : option Z :=
  match l with
  | [] => None
  | x :: l' => if String.eqb x s then Some 0 else Z.succ <$> index_of s l'
  end.

End Py.

(** ** [hashlib.md5] *)

(** The MD5 digest of RFC 1321 on 32-bit words kept in [Z], with the
    wrap-around written out. [hexdigest] is what [MailArchive.add] stores
    in the ledger. *)
Module Hashlib.

Definition w32 (x : Z) : Z := x mod 2 ^ 32.

Definition not32 (x : Z) : Z := Z.lxor x (2 ^ 32 - 1).

Definition rotl (x c : Z) : Z :=
  w32 (Z.lor (Z.shiftl x c) (Z.shiftr x (32 - c))).

Definition K : list Z :=
  [ 3614090360; 3905402710; 606105819; 3250441966;
    4118548399; 1200080426; 2821735955; 4249261313;
    1770035416; 2336552879; 4294925233; 2304563134;
    1804603682; 4254626195; 2792965006; 1236535329;
    4129170786; 3225465664; 643717713; 3921069994;
    3593408605; 38016083; 3634488961; 3889429448;
    568446438; 3275163606; 4107603335; 1163531501;
    2850285829; 4243563512; 1735328473; 2368359562;
    4294588738; 2272392833; 1839030562; 4259657740;
    2763975236; 1272893353; 4139469664; 3200236656;
    681279174; 3936430074; 3572445317; 76029189;
    3654602809; 3873151461; 530742520; 3299628645;
    4096336452; 1126891415; 2878612391; 4237533241;
    1700485571; 2399980690; 4293915773; 2240044497;
    1873313359; 4264355552; 2734768916; 1309151649;
    4149444226; 3174756917; 718787259; 3951481745 ].

Definition shifts : list Z :=
  [ 7; 12; 17; 22; 7; 12; 17; 22; 7; 12; 17; 22; 7; 12; 17; 22;
    5; 9; 14; 20; 5; 9; 14; 20; 5; 9; 14; 20; 5; 9; 14; 20;
    4; 11; 16; 23; 4; 11; 16; 23; 4; 11; 16; 23; 4; 11; 16; 23;
    6; 10; 15; 21; 6; 10; 15; 21; 6; 10; 15; 21; 6; 10; 15; 21 ].

Fixpoint bytes_of (s : string) : list Z :=
  match s with
  | EmptyString => []
  | String c s' => Z.of_N (N_of_ascii c) :: bytes_of s'
  end.

(** [n] bytes of [x], least significant first. *)
Fixpoint le_bytes (n : nat) (x : Z) : list Z :=
  match n with
  | O => []
  | S n' => x mod 256 :: le_bytes n' (x / 256)
  end.

(** Padding: one [0x80] byte, zeros up to 56 modulo 64, then the length
    in bits as a 64-bit little-endian number. *)
Definition pad (msg : list Z) : list Z :=
  let len := Z.of_nat (length msg) in
  msg ++ [128] ++ repeat 0 (Z.to_nat ((55 - len) mod 64))
      ++ le_bytes 8 ((8 * len) mod 2 ^ 64).

Fixpoint to_words (bs : list Z) : list Z :=
  match bs with
  | b0 :: b1 :: b2 :: b3 :: rest =>
      (b0 + 256 * b1 + 65536 * b2 + 16777216 * b3) :: to_words rest
  | _ => []
  end.

Fixpoint blocks (fuel : nat) (ws : list Z) : list (list Z) :=
  match fuel, ws with
  | S f, _ :: _ => take 16 ws :: blocks f (drop 16 ws)
  | _, _ => []
  end.

Definition round (M : list Z) (st : Z * Z * Z * Z) (i : nat) : Z * Z * Z * Z :=
  let '(A, B, C, D) := st in
  let iz := Z.of_nat i in
  let '(F, g) :=
    if Nat.ltb i 16 then (Z.lor (Z.land B C) (Z.land (not32 B) D), iz)
    else if Nat.ltb i 32
    then (Z.lor (Z.land D B) (Z.land (not32 D) C), (5 * iz + 1) mod 16)
    else if Nat.ltb i 48
    then (Z.lxor (Z.lxor B C) D, (3 * iz + 5) mod 16)
    else (Z.lxor C (Z.lor B (not32 D)), (7 * iz) mod 16) in
  let F' := w32 (F + A + nth i K 0 + nth (Z.to_nat g) M 0) in
  (D, w32 (B + rotl F' (nth i shifts 0)), B, C).

Definition block (st : Z * Z * Z * Z) (M : list Z) : Z * Z * Z * Z :=
  let '(a0, b0, c0, d0) := st in
  let '(A, B, C, D) := fold_left (round M) (seq 0 64) st in
  (w32 (a0 + A), w32 (b0 + B), w32 (c0 + C), w32 (d0 + D)).

Definition digest (s : string) : Z * Z * Z * Z :=
  let ws := to_words (pad (bytes_of s)) in
  fold_left block (blocks (length ws) ws)
            (1732584193, 4023233417, 2562383102, 271733878).

Definition hex_chr (x : Z) : ascii :=
  ascii_of_N (Z.to_N (if x <? 10 then 48 + x else 87 + x)).

Definition hex_byte (b : Z) : string :=
  String (hex_chr (b / 16)) (String (hex_chr (b mod 16)) EmptyString).

Definition hex_word (w : Z) : string :=
  Py.join "" (hex_byte <$> le_bytes 4 w).

Definition hexdigest (s : string) : string :=
  let '(a, b, c, d) := digest s in
  hex_word a +:+ hex_word b +:+ hex_word c +:+ hex_word d.

End Hashlib.

(** ** [datetime] and [calendar] *)

(** The proleptic Gregorian calendar of the [datetime] module, as its
    reference implementation computes it, and [calendar.timegm]. *)
Module Datetime.

Definition MINYEAR : Z := 1.
Definition MAXYEAR : Z := 9999.

Definition DAYS_IN_MONTH : list Z :=
  [-1; 31; 28; 31; 30; 31; 30; 31; 31; 30; 31; 30; 31].

Definition DAYS_BEFORE_MONTH : list Z :=
  [-1; 0; 31; 59; 90; 120; 151; 181; 212; 243; 273; 304; 334].

Definition is_leap (year : Z) : bool :=
  (year mod 4 =? 0) && (negb (year mod 100 =? 0) || (year mod 400 =? 0)).

Definition days_before_year (year : Z) : Z :=
  let y := year - 1 in y * 365 + y / 4 - y / 100 + y / 400.

Definition days_in_month (year month : Z) : Z :=
  if (month =? 2) && is_leap year then 29
  else nth (Z.to_nat month) DAYS_IN_MONTH 0.

Definition days_before_month (year month : Z) : Z :=
  nth (Z.to_nat month) DAYS_BEFORE_MONTH 0
  + (if (2 <? month) && is_leap year then 1 else 0).

Definition ymd2ord (year month day : Z) : Z :=
  days_before_year year + days_before_month year month + day.

Definition DI400Y : Z := days_before_year 401.
Definition DI100Y : Z := days_before_year 101.
Definition DI4Y : Z := days_before_year 5.

(** Ordinal to (year, month, day), 1 January of year 1 being day 1. *)
Definition ord2ymd (n : Z) : Z * Z * Z :=
  let n := n - 1 in
  let n400 := n / DI400Y in
  let n := n mod DI400Y in
  let year := n400 * 400 + 1 in
  let n100 := n / DI100Y in
  let n := n mod DI100Y in
  let n4 := n / DI4Y in
  let n := n mod DI4Y in
  let n1 := n / 365 in
  let n := n mod 365 in
  let year := year + n100 * 100 + n4 * 4 + n1 in
  if (n1 =? 4) || (n100 =? 4) then (year - 1, 12, 31)
  else
    let leapyear := (n1 =? 3) && (negb (n4 =? 24) || (n100 =? 3)) in
    let month := Z.shiftr (n + 50) 5 in
    let preceding :=
      nth (Z.to_nat month) DAYS_BEFORE_MONTH 0
      + (if (2 <? month) && leapyear then 1 else 0) in
    if n <? preceding
    then
      let month := month - 1 in
      let preceding :=
        preceding - (nth (Z.to_nat month) DAYS_IN_MONTH 0
                     + (if (month =? 2) && leapyear then 1 else 0)) in
      (year, month, n - preceding + 1)
    else (year, month, n - preceding + 1).

(** A naive [datetime.datetime] (microseconds are always zero here). *)
Record datetime : Type := mk_datetime
  { year : Z; month : Z; day : Z; hour : Z; minute : Z; second : Z }.

#[global] Instance datetime_eq_dec : EqDecision datetime.
Proof. solve_decision. Defined.

(** The first six fields of a time tuple. *)
Record struct_time : Type := mk_struct_time
  { tm_year : Z; tm_mon : Z; tm_mday : Z;
    tm_hour : Z; tm_min : Z; tm_sec : Z }.

(** [datetime.date(year, month, 1).toordinal()]: the constructor checks
    its fields. *)
Definition first_of_month_ordinal (year month : Z) : result Z :=
  if negb ((MINYEAR <=? year) && (year <=? MAXYEAR)) then Raise ValueError
  else if negb ((1 <=? month) && (month <=? 12)) then Raise ValueError
  else Ok (ymd2ord year month 1).

Definition EPOCH_ORD : Z := ymd2ord 1970 1 1.
Definition MAXORDINAL : Z := ymd2ord 9999 12 31.

(** [calendar.timegm]: day, hour, minute and second enter by plain
    arithmetic, whatever their range. *)
Definition timegm (t : struct_time) : result Z :=
  o ← first_of_month_ordinal (tm_year t) (tm_mon t);
  let days := o - EPOCH_ORD + tm_mday t - 1 in
  let hours := days * 24 + tm_hour t in
  let minutes := hours * 60 + tm_min t in
  let seconds := minutes * 60 + tm_sec t in
  Ok seconds.

(** [datetime.datetime.utcfromtimestamp] on an integral timestamp. *)
Definition utcfromtimestamp (t : Z) : result datetime :=
  let o := t / 86400 + EPOCH_ORD in
  let r := t mod 86400 in
  if (1 <=? o) && (o <=? MAXORDINAL)
  then let '(y, m, d) := ord2ymd o in
       Ok (mk_datetime y m d (r / 3600) (r mod 3600 / 60) (r mod 60))
  else Raise DateRangeError.

(** [dt.strftime('%Y-%m-%d %H:%M:%S')]; the C library pads every field to
    two digits except the year, which it prints as a plain decimal. *)
Definition strftime (dt : datetime) : string :=
  Py.fmt_d (year dt) +:+ "-" +:+ Py.fmt_0d 2 (month dt) +:+ "-"
  +:+ Py.fmt_0d 2 (day dt) +:+ " " +:+ Py.fmt_0d 2 (hour dt) +:+ ":"
  +:+ Py.fmt_0d 2 (minute dt) +:+ ":" +:+ Py.fmt_0d 2 (second dt).

End Datetime.

(** ** [email.utils] date parsing *)
Module EmailUtils.
Import Datetime.

Definition monthnames : list string :=
  [ "jan"; "feb"; "mar"; "apr"; "may"; "jun"; "jul";
    "aug"; "sep"; "oct"; "nov"; "dec";
    "january"; "february"; "march"; "april"; "may"; "june"; "july";
    "august"; "september"; "october"; "november"; "december" ].

Definition daynames : list string :=
  [ "mon"; "tue"; "wed"; "thu"; "fri"; "sat"; "sun" ].

Definition timezones : list (string * Z) :=
  [ ("UT", 0); ("UTC", 0); ("GMT", 0); ("Z", 0);
    ("AST", -400); ("ADT", -300);
    ("EST", -500); ("EDT", -400);
    ("CST", -600); ("CDT", -500);
    ("MST", -700); ("MDT", -600);
    ("PST", -800); ("PDT", -700) ].

Fixpoint assoc (k : string) (l : list (string * Z)) : option Z :=
  match l with
  | [] => None
  | (k', v) :: l' => if String.eqb k' k then Some v else assoc k l'
  end.

(** Skip a leading day name, or whatever precedes the last comma of the
    first word. *)
Definition skip_dayname (data : list string) : list string :=
  match data with
  | d0 :: rest =>
      if Py.endswith_chr "," d0 || Py.in_list (Py.lower d0) daynames
      then rest
      else
        let i := Py.rfind "," d0 in
        if 0 <=? i then Py.slice_from (Z.to_nat (i + 1)) d0 :: rest
        else data
  | [] => []
  end.

(** The deprecated RFC 850 form [dd-mm-yy]. *)
Definition rfc850 (data : list string) : list string :=
  match data with
  | [d0; d1; d2] =>
      match Py.split_chr "-" d0 with
      | [a; b; c] => [a; b; c; d1; d2]
      | _ => data
      end
  | _ => data
  end.

(** A zone glued to the time, or a dummy empty zone. *)
Definition split_zone (data : list string) : list string :=
  match data with
  | [d0; d1; d2; s] =>
      let i := Py.find "+" s in
      let i := if i =? -1 then Py.find "-" s else i in
      if 0 <? i
      then [d0; d1; d2; Py.slice_to (Z.to_nat i) s; Py.slice_from (Z.to_nat i) s]
      else [d0; d1; d2; s; ""]
  | _ => data
  end.

(** Hours, minutes and seconds, separated by colons or by dots. *)
Definition split_time (tm : string) : option (string * string * string) :=
  match Py.split_chr ":" tm with
  | [thh; tmm] => Some (thh, tmm, "0")
  | [thh; tmm; tss] => Some (thh, tmm, tss)
  | [t0] =>
      if Py.contains_chr "." t0
      then match Py.split_chr "." t0 with
           | [thh; tmm] => Some (thh, tmm, "0")
           | [thh; tmm; tss] => Some (thh, tmm, tss)
           | _ => None
           end
      else None
  | _ => None
  end.

(** The zone word to an offset in seconds; [None] for no usable zone and
    for [-0000]. *)
Definition zone_offset (tz : string) : option Z :=
  let tz := Py.upper tz in
  let tzoffset :=
    match assoc tz timezones with
    | Some o => Some o
    | None =>
        match Py.int tz with
        | Some o => if (o =? 0) && Py.startswith_chr "-" tz then None else Some o
        | None => None
        end
    end in
  match tzoffset with
  | Some o =>
      if o =? 0 then Some 0
      else
        let '(tzsign, o) := if o <? 0 then (-1, - o) else (1, o) in
        Some (tzsign * ((o / 100) * 3600 + (o mod 100) * 60))
  | None => None
  end.

(** The five words of a date, once isolated. *)
Definition parse_words (dd mm yy tm tz : string)
  : result (option (struct_time * option Z)) :=
  if negb (Py.nonempty dd && Py.nonempty mm && Py.nonempty yy) then Ok None
  else
    let mm := Py.lower mm in
    let '(dd, mm) :=
      if Py.in_list mm monthnames then (dd, mm) else (mm, Py.lower dd) in
    match Py.index_of mm monthnames with
    | None => Ok None
    | Some i =>
        let mm := i + 1 in
        let mm := if 12 <? mm then mm - 12 else mm in
        c ← Py.last_chr dd;
        let dd := if Ascii.eqb c "," then Py.drop_last dd else dd in
        let i := Py.find ":" yy in
        let '(yy, tm) := if 0 <? i then (tm, yy) else (yy, tm) in
        c ← Py.last_chr yy;
        let yy := if Ascii.eqb c "," then Py.drop_last yy else yy in
        if negb (Py.nonempty yy) then Ok None
        else
          c ← Py.first_chr yy;
          let '(yy, tz) := if negb (Py.isdigit c) then (tz, yy) else (yy, tz) in
          c ← Py.last_chr tm;
          let tm := if Ascii.eqb c "," then Py.drop_last tm else tm in
          match split_time tm with
          | None => Ok None
          | Some (thh, tmm, tss) =>
              match Py.int yy, Py.int dd, Py.int thh, Py.int tmm, Py.int tss with
              | Some yy, Some dd, Some thh, Some tmm, Some tss =>
                  let yy :=
                    if yy <? 100
                    then if 68 <? yy then yy + 1900 else yy + 2000
                    else yy in
                  Ok (Some (mk_struct_time yy mm dd thh tmm tss, zone_offset tz))
              | _, _, _, _, _ => Ok None
              end
          end
    end.

Definition _parsedate_tz (data : string)
  : result (option (struct_time * option Z)) :=
  if negb (Py.nonempty data) then Ok None
  else
    let data := Py.split_ws data in
    match data with
    | [] => Ok None
    | _ :: _ =>
        match take 5 (split_zone (rfc850 (skip_dayname data))) with
        | [dd; mm; yy; tm; tz] => parse_words dd mm yy tm tz
        | _ => Ok None
        end
    end.

(** [email.utils.parsedate_tz]: a missing zone is replaced by offset 0, so
    the tuple it returns always carries an integral offset. *)
Definition parsedate_tz (data : string) : result (option (struct_time * Z)) :=
  res ← _parsedate_tz data;
  match res with
  | None => Ok None
  | Some (t, tz) => Ok (Some (t, default 0 tz))
  end.

(** [email.utils.mktime_tz] on a tuple returned by [parsedate_tz]. Its
    branch for a tuple without offset (local time) needs a [None] that
    [parsedate_tz] never produces; the type leaves it out. *)
Definition mktime_tz (data : struct_time * Z) : result Z :=
  t ← timegm (fst data);
  Ok (t - snd data).

End EmailUtils.

(** ** The archive *)
Module Archive.
Import Datetime EmailUtils.

(** *** Messages *)

(** An [email.message.Message]: its header list, in order, with the
    values as the parser keeps them, and its body. [payload] is the body
    as the generator flattens it. *)
Record Message : Type := mk_Message
  { headers : list (string * string);
    payload : string }.

#[global] Instance Message_eq_dec : EqDecision Message.
Proof. solve_decision. Defined.

(** What a message hands out for a header: the value itself, a [str], or
    an [email.header.Header] object with the charset [unknown-8bit]
    wrapped around it. *)
Inductive header_value : Type :=
| Text (s : string)
| Header (raw : string).

#[global] Instance header_value_eq_dec : EqDecision header_value.
Proof. solve_decision. Defined.

(** [Compat32._sanitize_header], through which the default policy passes
    every value it hands out: a value that holds bytes outside ASCII
    comes as a [Header]. *)
Definition _sanitize_header (value : string) : header_value :=
  if Py.has_surrogates value then Header value else Text value.

(** [str(value)]. For a [Header] of charset [unknown-8bit] this is
    [Header.__str__]: the bytes outside ASCII are replaced. *)
Definition str (v : header_value) : string :=
  match v with
  | Text s => s
  | Header raw => Py.decode_replace raw
  end.

Definition header_is (name : string) (kv : string * string) : bool :=
  String.eqb (Py.lower (fst kv)) (Py.lower name).

(** [msg.get(name)]: the first header of that name, compared without
    regard to case, or [None]. *)
Definition msg_get (name : string) (msg : Message) : option header_value :=
  (fun kv => _sanitize_header (snd kv)) <$> List.find (header_is name) (headers msg).

(** [msg.get_all(name, [])]. *)
Definition msg_get_all (name : string) (msg : Message) : list header_value :=
  (fun kv => _sanitize_header (snd kv)) <$> List.filter (header_is name) (headers msg).

(** [name in msg]. *)
Definition msg_contains (name : string) (msg : Message) : bool :=
  Py.in_list (Py.lower name) (Py.lower <$> (fst <$> headers msg)).

(** [bytes(msg)]: every header as [name: value], a blank line, the body.
    Bytes outside ASCII are written as they are. *)
Definition as_bytes (msg : Message) : string :=
  Py.join "" ((fun kv => fst kv +:+ ": " +:+ snd kv +:+ Py.LF) <$> headers msg)
  +:+ Py.LF +:+ payload msg.

(** Truth value of what [msg.get] returns: [None] and [''] are false; a
    [Header] object, which defines neither [__bool__] nor [__len__], is
    true. *)
Definition truthy (v : option header_value) : bool :=
  match v with
  | Some (Text s) => Py.nonempty s
  | Some (Header _) => true
  | None => false
  end.

(** *** The archive directory and the mailbox handles *)

(** A [mailbox.mbox] object: which file it is on, and its identity. *)
Record mbox : Type := mk_mbox
  { mbox_id : nat;
    mbox_name : string }.

#[global] Instance mbox_eq_dec : EqDecision mbox.
Proof. solve_decision. Defined.

Inductive event : Type :=
| EvOpen (id : nat) (name : string)
| EvClose (id : nat)
| EvDump (fingerprints : gset string).

(** The archive directory. [files] holds every entry but the ledger, each
    seen as the list of messages an mbox reader finds in it; [ledger] is
    the content of the ledger file, if it exists. [live] are the mailbox
    handles opened and not closed so far, and [trace] records handle
    openings, closings and ledger dumps in order. An append through a
    handle shows in [files] at once; buffering until close is not
    modelled. *)
Record World : Type := mk_World
  { files : gmap string (list Message);
    ledger : option (gset string);
    live : gset nat;
    next_id : nat;
    trace : list event }.

Definition SEEN_FNAME : string := "seen.pickle".

(** [os.listdir]: in no particular order. *)
Definition listdir (w : World) : list string :=
  match ledger w with Some _ => [SEEN_FNAME] | None => [] end
  ++ (map_to_list (files w)).*1.

(** [mailbox.mbox(path)]: the file is created empty when missing. *)
Definition mbox_open (name : string) (w : World) : mbox * World :=
  (mk_mbox (next_id w) name,
   mk_World
     (match files w !! name with
      | Some _ => files w
      | None => <[name := []]> (files w)
      end)
     (ledger w)
     ({[next_id w]} ∪ live w)
     (S (next_id w))
     (trace w ++ [EvOpen (next_id w) name])).

Definition mbox_messages (b : mbox) (w : World) : list Message :=
  files w !!! mbox_name b.

(** [len(box)], which is also the truth value of a mailbox object. *)
Definition mbox_len (b : mbox) (w : World) : nat :=
  length (mbox_messages b w).

(** [fcre.sub('>From ', payload)] with
    [fcre = re.compile(r'^From ', re.MULTILINE)], as the generator does
    when asked to mangle: a [>] goes before every line of the body that
    begins with [From ] and a blank. [bol] tells whether the position is
    the beginning of a line. *)
Fixpoint mangle_from_ (bol : bool) (s : string) : string :=
  match s with
  | EmptyString => EmptyString
  | String c s' =>
      let rest := String c (mangle_from_ (Ascii.eqb c "010") s') in
      if bol && String.prefix "From " s then String ">" rest else rest
  end.

(** The message an mbox reader finds where [box.add(msg)] wrote [msg].
    [mbox._dump_message] flattens the message with [mangle_from_] set and
    no header folding, and writes a line feed after it unless what it
    wrote ends in one; the blank line that separates messages in the file
    is not part of the message. *)
Definition mbox_stored (msg : Message) : Message :=
  let mangled := mk_Message (headers msg) (mangle_from_ true (payload msg)) in
  if Py.endswith_chr "010" (as_bytes mangled) then mangled
  else mk_Message (headers msg) (payload mangled +:+ Py.LF).

(** [box.add(msg)]. *)
Definition mbox_add (b : mbox) (msg : Message) (w : World) : World :=
  mk_World (<[mbox_name b := mbox_messages b w ++ [mbox_stored msg]]> (files w))
           (ledger w) (live w) (next_id w) (trace w).

(** [box.close()]. *)
Definition mbox_close (w : World) (b : mbox) : World :=
  mk_World (files w) (ledger w) (live w ∖ {[mbox_id b]}) (next_id w)
           (trace w ++ [EvClose (mbox_id b)]).

(** A mailbox object loses its last reference: the interpreter finalises
    it at once and its file is closed, with no call of [close]. *)
Definition mbox_release (w : World) (b : mbox) : World :=
  mk_World (files w) (ledger w) (live w ∖ {[mbox_id b]}) (next_id w) (trace w).

(** *** [MailArchive] *)

(** The attributes an archive object has between [__enter__] and
    [__exit__]: the handle cache and the in-memory ledger. The directory
    is the [World] the operations are run on. *)
Record MailArchive : Type := mk_MailArchive
  { boxes : gmap string mbox;
    seen : gset string }.

Definition __enter__ (w : World) : MailArchive * World :=
  (mk_MailArchive ∅ (default ∅ (ledger w)), w).

(** [__exit__] ignores the exception it is given and returns [False]. *)
Definition __exit__ (a : MailArchive) (w : World) (exc : option exn)
  : bool * World :=
  let w := foldl mbox_close w (map_to_list (boxes a)).*2 in
  (false,
   mk_World (files w) (Some (seen a)) (live w) (next_id w)
            (trace w ++ [EvDump (seen a)])).

(** The [with] statement: the body's exception, if any, is handed to
    [__exit__], which runs on every path; the exception is re-raised
    unless [__exit__] returns true, in which case the statement completes
    with no value ([Ok None]). [S] is state outside the archive that the
    body works on (a log, an output file). *)
Definition with_MailArchive {A S : Type}
    (body : MailArchive -> World -> S -> result A * MailArchive * World * S)
    (w : World) (s : S) : result (option A) * World * S :=
  let '(a, w) := __enter__ w in
  let '(r, a, w, s) := body a w s in
  let '(suppress, w) :=
    __exit__ a w (match r with Raise e => Some e | Ok _ => None end) in
  match r with
  | Ok v => (Ok (Some v), w, s)
  | Raise e => if suppress then (Ok None, w, s) else (Raise e, w, s)
  end.

(** [if outbox] is false for [None] and for a mailbox without messages.
    In the latter case the assignment to [self.boxes[name]] takes the
    only reference to the cached object away. *)
Definition _get_box_by_name (name : string) (a : MailArchive) (w : World)
  : mbox * MailArchive * World :=
  let outbox := boxes a !! name in
  match outbox with
  | Some b0 =>
      if Nat.ltb 0 (mbox_len b0 w) then (b0, a, w)
      else
        let '(b, w) := mbox_open name w in
        (b, mk_MailArchive (<[name := b]> (boxes a)) (seen a),
         mbox_release w b0)
  | None =>
      let '(b, w) := mbox_open name w in
      (b, mk_MailArchive (<[name := b]> (boxes a)) (seen a), w)
  end.

(** ["%04d%02d" % (timestamp.year, timestamp.month)]. *)
Definition partition_name (timestamp : datetime) : string :=
  Py.fmt_0d 4 (year timestamp) +:+ Py.fmt_0d 2 (month timestamp).

Definition _get_box_by_timestamp (timestamp : datetime)
    (a : MailArchive) (w : World) : mbox * MailArchive * World :=
  _get_box_by_name (partition_name timestamp) a w.

(** The fingerprint [add] computes. *)
Definition fingerprint (msg : Message) : string :=
  Hashlib.hexdigest (as_bytes msg).

(** The date of a message as [add] and [export] derive it from a [Date]
    value: parse, convert to a timestamp, convert to naive UTC. [Ok None]
    when the parser returns nothing. The parser is written for a [str]:
    given a [Header] object, which is true, it goes on to call the
    [split] method on it, and the object has none. *)
Definition utc_of_date (d : header_value) : result (option datetime) :=
  match d with
  | Header _ => Raise AttributeError
  | Text d =>
      p ← parsedate_tz d;
      match p with
      | None => Ok None
      | Some tup =>
          t ← mktime_tz tup;
          dt ← utcfromtimestamp t;
          Ok (Some dt)
      end
  end.

Definition add (msg : Message) (a : MailArchive) (w : World)
  : result unit * MailArchive * World :=
  let md5 := fingerprint msg in
  if bool_decide (md5 ∈ seen a) then (Raise DuplicateError, a, w)
  else
    let a := mk_MailArchive (boxes a) (seen a ∪ {[md5]}) in
    let timestamp := msg_get "Date" msg in
    if negb (truthy timestamp) then (Raise UndatedError, a, w)
    else
      match utc_of_date (default (Text "") timestamp) with
      | Raise e => (Raise e, a, w)
      | Ok None => (Raise UndatedError, a, w)
      | Ok (Some timestamp) =>
          let '(outbox, a, w) := _get_box_by_timestamp timestamp a w in
          (Ok (), a, mbox_add outbox msg w)
      end.

(** [re.match(r'[12][0-9]{5}', name)]: the pattern is matched at the start
    of the name, and nothing is required of what follows. *)
Definition re_match_partition (name : string) : bool :=
  match name with
  | String c0 (String c1 (String c2 (String c3 (String c4 (String c5 _))))) =>
      (Ascii.eqb c0 "1" || Ascii.eqb c0 "2")
      && Py.isdigit c1 && Py.isdigit c2 && Py.isdigit c3
      && Py.isdigit c4 && Py.isdigit c5
  | _ => false
  end.

(** A [for] loop over a list with a body that may raise: the loop stops
    at the first exception. [S] is the state of the loop body. *)
Fixpoint for_each {X S : Type} (body : X -> S -> result unit * S)
    (l : list X) (s : S) : result unit * S :=
  match l with
  | [] => (Ok (), s)
  | x :: l' =>
      match body x s with
      | (Ok _, s') => for_each body l' s'
      | (Raise e, s') => (Raise e, s')
      end
  end.

(** [for msg in archive: body]. The generator [__iter__] lists the
    directory once, and for every matching name obtains the box and
    yields its messages; it is driven by the loop that consumes it, so
    a body that raises leaves the remaining names unopened. *)
Fixpoint iter_names {S : Type} (body : Message -> S -> result unit * S)
    (names : list string) (a : MailArchive) (w : World) (s : S)
  : result unit * MailArchive * World * S :=
  match names with
  | [] => (Ok (), a, w, s)
  | name :: names' =>
      if negb (re_match_partition name) then iter_names body names' a w s
      else
        let '(box, a, w) := _get_box_by_name name a w in
        match for_each body (mbox_messages box w) s with
        | (Ok _, s') => iter_names body names' a w s'
        | (Raise e, s') => (Raise e, a, w, s')
        end
  end.

Definition __iter__ {S : Type} (body : Message -> S -> result unit * S)
    (a : MailArchive) (w : World) (s : S)
  : result unit * MailArchive * World * S :=
  iter_names body (listdir w) a w s.

(** [list(archive)]: the messages of a complete iteration. *)
Definition messages (a : MailArchive) (w : World)
  : list Message * MailArchive * World :=
  let '(_, a, w, l) :=
    __iter__ (fun msg acc => (Ok (), acc ++ [msg])) a w [] in
  (l, a, w).

(** *** Ingestion *)

(** A source mailbox, as the loop of [process] sees it: for every key of
    [box.iterkeys()], in order, what [box[key]] gives. *)
Definition source_box : Type := list (result Message).

(** An entry handed to [process]: a file, or a directory with the regular
    files [os.walk] finds beneath it, in walk order. *)
Inductive entry : Type :=
| EntryFile (path : string) (box : source_box)
| EntryDir (path : string) (walk : list (string * source_box)).

(** The counters [ok], [duplicate] and [error]. *)
Record tally : Type := mk_tally { ok : Z; duplicate : Z; error : Z }.

#[global] Instance tally_eq_dec : EqDecision tally.
Proof. solve_decision. Defined.

(** The [try] body of the loop: [msg = box[key]; archive.add(msg)]. *)
Definition attempt (r : result Message) (a : MailArchive) (w : World)
  : result unit * MailArchive * World :=
  match r with
  | Ok msg => add msg a w
  | Raise e => (Raise e, a, w)
  end.

(** [for key in box.iterkeys(): try: ... except ...]. *)
Fixpoint process_keys (box : source_box) (a : MailArchive) (w : World)
    (t : tally) : result tally * MailArchive * World :=
  match box with
  | [] => (Ok t, a, w)
  | r :: box' =>
      let '(outcome, a, w) := attempt r a w in
      match outcome with
      | Ok _ =>
          process_keys box' a w (mk_tally (ok t + 1) (duplicate t) (error t))
      | Raise KeyError => process_keys box' a w t
      | Raise UnicodeDecodeError =>
          process_keys box' a w (mk_tally (ok t) (duplicate t) (error t + 1))
      | Raise DuplicateError =>
          process_keys box' a w (mk_tally (ok t) (duplicate t + 1) (error t))
      | Raise UndatedError =>
          process_keys box' a w (mk_tally (ok t) (duplicate t) (error t + 1))
      | Raise e => (Raise e, a, w)
      end
  end.

(** ["%s: %d OK, %d duplicate(s), %d error(s)" % (entry, ok, duplicate, error)]. *)
Definition summary (path : string) (t : tally) : string :=
  path +:+ ": " +:+ Py.fmt_d (ok t) +:+ " OK, "
  +:+ Py.fmt_d (duplicate t) +:+ " duplicate(s), "
  +:+ Py.fmt_d (error t) +:+ " error(s)".

(** The [else] branch of [process]: one archive scope for one source
    file; the summary is logged inside the scope, after the loop. *)
Definition process_file (path : string) (box : source_box)
    (w : World) (log : list string) : result unit * World * list string :=
  let body a w log :=
    match process_keys box a w (mk_tally 0 0 0) with
    | (Ok t, a, w) => (Ok (), a, w, log ++ [summary path t])
    | (Raise e, a, w) => (Raise e, a, w, log)
    end in
  match with_MailArchive body w log with
  | (Ok _, w, log) => (Ok (), w, log)
  | (Raise e, w, log) => (Raise e, w, log)
  end.

Fixpoint process_walk (walk : list (string * source_box))
    (w : World) (log : list string) : result unit * World * list string :=
  match walk with
  | [] => (Ok (), w, log)
  | (path, box) :: walk' =>
      match process_file path box w log with
      | (Ok _, w, log) => process_walk walk' w log
      | (Raise e, w, log) => (Raise e, w, log)
      end
  end.

Definition process_entry (e : entry) (w : World) (log : list string)
  : result unit * World * list string :=
  match e with
  | EntryDir _ walk => process_walk walk w log
  | EntryFile path box => process_file path box w log
  end.

Fixpoint process (entries : list entry) (w : World) (log : list string)
  : result unit * World * list string :=
  match entries with
  | [] => (Ok (), w, log)
  | e :: entries' =>
      match process_entry e w log with
      | (Ok _, w, log) => process entries' w log
      | (Raise e, w, log) => (Raise e, w, log)
      end
  end.

(** *** Export *)

Section Exporter.

(** [email.utils.parseaddr] and [email.utils.getaddresses]: the address
    parser of the mail library, a pair (real name, address) per address. *)
Variable parseaddr : string -> string * string.
Variable getaddresses : list string -> list (string * string).

Definition CSV_HEADER : string :=
  "timestamp,sender,recipients,size,list" +:+ Py.LF.

(** The date column. A missing [Date] goes through the parser as [None],
    which the parser returns unchanged, and [mktime_tz] then fails on it
    with a [TypeError]. *)
Definition export_timestamp (msg : Message) : result string :=
  match msg_get "Date" msg with
  | None => Raise TypeError
  | Some d =>
      r ← utc_of_date d;
      match r with
      | None => Raise TypeError
      | Some dt => Ok (strftime dt)
      end
  end.

(** [parseaddr(str(sender))[1].lower()]. *)
Definition export_sender (sender : header_value) : string :=
  Py.lower (snd (parseaddr (str sender))).

Definition export_recipients (msg : Message) : list string :=
  (fun p => Py.lower (snd p))
    <$> getaddresses (str <$> (msg_get_all "To" msg ++ msg_get_all "Cc" msg)).

(** ['%s,%s,%s,%d,%d\n' % (...)]. *)
Definition export_row (timestamp sender : string) (recipients : list string)
    (size : Z) (is_list : bool) : string :=
  timestamp +:+ "," +:+ sender +:+ "," +:+ Py.join " " recipients +:+ ","
  +:+ Py.fmt_d size +:+ "," +:+ Py.fmt_d (if is_list then 1 else 0) +:+ Py.LF.

(** The body of the [for msg in archive] loop of [export]; the state is
    what has been written to [output], one element per [write]. *)
Definition export_msg (msg : Message) (output : list string)
  : result unit * list string :=
  let sender := msg_get "From" msg in
  if negb (truthy sender) then (Ok (), output)
  else
    let sender := export_sender (default (Text "") sender) in
    match export_timestamp msg with
    | Raise e => (Raise e, output)
    | Ok timestamp =>
        let size := Z.of_nat (String.length (as_bytes msg)) in
        let is_list := msg_contains "List-Id" msg in
        let recipients := export_recipients msg in
        (Ok (), output ++ [export_row timestamp sender recipients size is_list])
    end.

Definition export (w : World) (output : list string)
  : result (option unit) * World * list string :=
  with_MailArchive
    (fun a w output => __iter__ export_msg a w (output ++ [CSV_HEADER]))
    w output.

End Exporter.

End Archive.

(** ** The command line *)
Module Run.
Import Archive.

Section Main.

Variable parseaddr : string -> string * string.
Variable getaddresses : list string -> list (string * string).

(** The body of [run.py] once the arguments are parsed: [build] is the
    list given to [--build] (empty when the option is absent), [export]
    the flag [--export]. [log] is what the logger received, [stdout]
    what was written to standard output. An exception raised by
    [process] ends the program before the export. *)
Definition main (build : list entry) (export : bool)
    (w : World) (log stdout : list string)
  : result unit * World * list string * list string :=
  let '(r, w, log) :=
    match build with
    | [] => (Ok (), w, log)
    | _ :: _ => process build w log
    end in
  match r with
  | Raise e => (Raise e, w, log, stdout)
  | Ok _ =>
      if export
      then match Archive.export parseaddr getaddresses w stdout with
           | (Ok _, w, stdout) => (Ok (), w, log, stdout)
           | (Raise e, w, stdout) => (Raise e, w, log, stdout)
           end
      else (Ok (), w, log, stdout)
  end.

End Main.

End Run.

(** ** Predicates used in the statements *)
Module Props.
Import Datetime EmailUtils Archive.

(** The [Date] header is absent, or its value is text that fails to
    parse: the parser makes nothing of it (the empty value included). *)
Definition undated (msg : Message) : Prop :=
  match msg_get "Date" msg with
  | None => True
  | Some (Text d) => parsedate_tz d = Ok None
  | Some (Header _) => False
  end.

(** The [Date] header is there and parses with an explicit zone: the
    parser itself, before [parsedate_tz] fills in a default, finds an
    offset. *)
Definition dated_with_zone (msg : Message) : Prop :=
  exists d t z,
    msg_get "Date" msg = Some (Text d) /\
    _parsedate_tz d = Ok (Some (t, Some z)).

(** Every cached handle is on the file it is cached for. Holds of the
    empty cache of [__enter__] and is kept by every operation. *)
Definition cache_ok (a : MailArchive) : Prop :=
  forall name b, boxes a !! name = Some b -> mbox_name b = name.

(** The messages of the entries of [names] that the iteration pattern
    selects, in the order of [names]. *)
Definition selected_messages (names : list string) (w : World) : list Message :=
  concat ((fun name => files w !!! name) <$> List.filter re_match_partition names).

(** The four exceptions the ingestion loop handles. *)
Definition caught (e : exn) : bool :=
  match e with
  | KeyError | UnicodeDecodeError | DuplicateError | UndatedError => true
  | _ => false
  end.

Definition aborts (o : result unit) : bool :=
  match o with
  | Ok _ => false
  | Raise e => negb (caught e)
  end.

(** What the keys of a source mailbox come to, one after the other, each
    from the state the previous one left: for a key whose read fails, the
    exception of the read, with the archive untouched; for a key that
    reads as a message, what [add] answers for that message. The list
    ends with the first outcome that is an exception other than the four
    above, if there is one; the keys after it have no outcome. *)
Fixpoint attempts (box : source_box) (a : MailArchive) (w : World)
  : list (result unit) * MailArchive * World :=
  match box with
  | [] => ([], a, w)
  | r :: box' =>
      let '(o, a, w) :=
        match r with
        | Ok msg => add msg a w
        | Raise e => (Raise e, a, w)
        end in
      if aborts o then ([o], a, w)
      else let '(os, a, w) := attempts box' a w in (o :: os, a, w)
  end.

(** How many of the outcomes are [o]. *)
Definition occurrences (o : result unit) (os : list (result unit)) : Z :=
  Z.of_nat (length (List.filter (fun o' => bool_decide (o' = o)) os)).

(** The exception that ended the loop, if one did. *)
Definition aborted_by (os : list (result unit)) : option exn :=
  match last os with
  | Some (Raise e) => if caught e then None else Some e
  | _ => None
  end.

(** The tally after a run of outcomes, from a given tally: successes,
    duplicates, and decoding failures together with undated messages;
    a missing key counts nowhere. *)
Definition tally_after (t : tally) (os : list (result unit)) : tally :=
  mk_tally (ok t + occurrences (Ok ()) os)
           (duplicate t + occurrences (Raise DuplicateError) os)
           (error t + (occurrences (Raise UnicodeDecodeError) os
                       + occurrences (Raise UndatedError) os)).

(** The message has a [From] header with a non-empty value. *)
Definition has_sender (msg : Message) : bool := truthy (msg_get "From" msg).

(** The message has a [Date] that converts to a UTC date and time, as
    every message stored by [add] has. *)
Definition dated (msg : Message) : Prop :=
  exists d dt, msg_get "Date" msg = Some d /\ utc_of_date d = Ok (Some dt).

(** The message without its [From] headers. *)
Definition without_from (msg : Message) : Message :=
  mk_Message (List.filter (fun kv => negb (header_is "From" kv)) (headers msg))
             (payload msg).

Section Rows.

Variable parseaddr : string -> string * string.
Variable getaddresses : list string -> list (string * string).

(** The line [export] writes for a message with [From] value [sender]
    and UTC date [dt]. *)
Definition row_of (msg : Message) (sender : header_value) (dt : datetime) : string :=
  strftime dt +:+ "," +:+ Py.lower (parseaddr (str sender)).2 +:+ ","
  +:+ Py.join " " ((fun p => Py.lower p.2)
                     <$> getaddresses
                           (str <$> (msg_get_all "To" msg ++ msg_get_all "Cc" msg)))
  +:+ "," +:+ Py.fmt_d (Z.of_nat (String.length (as_bytes msg)))
  +:+ "," +:+ (if msg_contains "List-Id" msg then "1" else "0") +:+ Py.LF.

Definition is_row_of (msg : Message) (row : string) : Prop :=
  exists sender d dt,
    msg_get "From" msg = Some sender /\ sender <> Text "" /\
    msg_get "Date" msg = Some d /\ utc_of_date d = Ok (Some dt) /\
    row = row_of msg sender dt.

End Rows.

(** *** Invariants of an archive *)


(** Nothing was lost between [(s0, fs0)] and [(s, fs)]: the ledger only
    grew, and every partition only grew at its end. *)
Definition extends (s0 : gset string) (fs0 : gmap string (list Message))
    (s : gset string) (fs : gmap string (list Message)) : Prop :=
  s0 ⊆ s /\ forall name, fs0 !!! name `prefix_of` fs !!! name.

(** The ledger a scope opened on [w] starts from. *)
Definition ledger_of (w : World) : gset string := default ∅ (ledger w).

(** A property of ledger and files that every call of [add] keeps. *)
Definition kept_by_add (J : gset string -> gmap string (list Message) -> Prop) : Prop :=
  forall msg a w r a' w',
    cache_ok a -> J (seen a) (files w) ->
    add msg a w = (r, a', w') -> J (seen a') (files w').

(** The cached handles are well formed: each is on the file it is cached
    for, was issued before, is still open, and is cached under one name
    only. *)
Definition handles_ok (a : MailArchive) (w : World) : Prop :=
  forall name b,
    boxes a !! name = Some b ->
    mbox_name b = name /\ (mbox_id b < next_id w)%nat /\ mbox_id b ∈ live w /\
    forall name' b',
      boxes a !! name' = Some b' -> mbox_id b' = mbox_id b -> name' = name.

(** Reading a key of a source mailbox gives a message, or fails in one
    of the two ways the ingestion loop expects of a read. *)
Definition plain_read (r : result Message) : Prop :=
  match r with
  | Ok _ => True
  | Raise e => e = KeyError \/ e = UnicodeDecodeError
  end.

(** How many keys of a source mailbox read as a message, and how many
    fail to decode. *)
Definition readable (box : source_box) : Z :=
  Z.of_nat (length (List.filter (fun r => match r with Ok _ => true | Raise _ => false end) box)).

Definition undecodable (box : source_box) : Z :=
  Z.of_nat (length (List.filter
                      (fun r => match r with
                                | Raise UnicodeDecodeError => true
                                | _ => false
                                end) box)).

(** Checks on the digits of a formatted year and of a formatted month,
    for the proof of the shape of partition names. *)
Definition year_digits_ok (y : Z) : bool :=
  match Py.fmt_0d 4 y with
  | String c0 (String c1 (String c2 (String c3 EmptyString))) =>
      Py.isdigit c1 && Py.isdigit c2 && Py.isdigit c3
      && Bool.eqb (Ascii.eqb c0 "1" || Ascii.eqb c0 "2")
                  ((1000 <=? y) && (y <=? 2999))
  | _ => false
  end.

Definition month_digits_ok (m : Z) : bool :=
  match Py.fmt_0d 2 m with
  | String c4 (String c5 EmptyString) => Py.isdigit c4 && Py.isdigit c5
  | _ => false
  end.

(** The fingerprints of the messages a source mailbox reads as. *)
Definition read_fingerprints (box : source_box) : gset string :=
  list_to_set
    (omap (fun r => match r with Ok m => Some (fingerprint m) | Raise _ => None end)
          box).

End Props.

(** ** Sample data *)
Module Samples.
Import Datetime EmailUtils Archive.

(** An archive directory that does not hold anything yet. *)
Definition empty_World : World := mk_World ∅ None ∅ 0 [].

Definition msg_march : Message :=
  mk_Message [ ("From", "A@X.COM"); ("To", "b@y.com");
               ("Date", "Fri, 15 Mar 2024 10:00:00 +0000") ] "hello".

Definition msg_new_year : Message :=
  mk_Message [ ("From", "carol@example.org");
               ("Date", "Sun, 31 Dec 2023 23:59:59 -0001") ] "".

Definition msg_no_date : Message :=
  mk_Message [ ("From", "dave@example.org"); ("Subject", "hi") ] "text".

Definition msg_no_zone : Message :=
  mk_Message [ ("From", "erin@example.org");
               ("Date", "Fri, 15 Mar 2024 10:00:00") ] "text".

Definition msg_empty_from : Message :=
  mk_Message [ ("From", ""); ("To", "b@y.com");
               ("Date", "Fri, 15 Mar 2024 10:00:00 +0000") ] "x".

(** An open archive that has seen [msg_march]. *)
Definition arch_seen_march : MailArchive :=
  mk_MailArchive ∅ {[fingerprint msg_march]}.

Definition arch_fresh : MailArchive := mk_MailArchive ∅ ∅.

(** A directory with a partition, a backup copy of one, a text file and
    a ledger file. *)
Definition world_with_strays : World :=
  mk_World (<["202403" := [msg_march]]>
            (<["202401.bak" := [msg_new_year]]>
             (<["notes.txt" := [msg_no_date]]> ∅)))
           (Some ∅) ∅ 0 [].

(** An archive directory holding [msg_march] in its partition. *)
Definition world_march : World :=
  mk_World (<["202403" := [msg_march]]> ∅) (Some {[fingerprint msg_march]}) ∅ 0 [].

(** A stand-in for the address parser on bare addresses: no real name,
    the text as the address. *)
Definition bare_parseaddr (s : string) : string * string := ("", s).
Definition bare_getaddresses (l : list string) : list (string * string) :=
  (fun s => ("", s)) <$> l.

(** A message dated in a year the calendar of [datetime] does not have. *)
Definition msg_year_99999 : Message :=
  mk_Message [ ("From", "frank@example.org");
               ("Date", "1 Jan 99999 00:00:00 +0000") ] "far".

(** An open archive with a cached handle on the partition [202401], in a
    directory where that partition exists and is empty. *)
Definition world_empty_partition : World :=
  mk_World (<["202401" := []]> ∅) (Some ∅) {[0%nat]} 1 [EvOpen 0 "202401"].

Definition arch_empty_partition : MailArchive :=
  mk_MailArchive (<["202401" := mk_mbox 0 "202401"]> ∅) ∅.

(** A directory in which a message without [Date] has been put into a
    partition, after a dated one. *)
Definition world_undated_stored : World :=
  mk_World (<["202403" := [msg_march; msg_no_date; msg_new_year]]> ∅)
           None ∅ 0 [].

(** A message as read from an mbox file whose [Date] is French text in
    Latin-1: the [e] with acute accent is the byte 233. *)
Definition msg_8bit_date : Message :=
  mk_Message [ ("From", "henri@example.org");
               ("Date", "vendredi 15 f" +:+ String "233" "vrier 2024") ] "texte".

(** The same date without the accent. *)
Definition msg_ascii_date : Message :=
  mk_Message [ ("From", "henri@example.org");
               ("Date", "vendredi 15 fevrier 2024") ] "texte".

(** A message whose date has no zone and lies outside the calendar. *)
Definition msg_year_99999_no_zone : Message :=
  mk_Message [ ("From", "frank@example.org");
               ("Date", "1 Jan 99999 00:00:00") ] "far".

(** A message whose body has a line that begins like the separator of
    an mbox file, and does not end in a line feed. *)
Definition msg_from_line : Message :=
  mk_Message [ ("From", "ivy@example.org");
               ("Date", "Fri, 15 Mar 2024 10:00:00 +0000") ]
             ("Hi" +:+ Py.LF +:+ "From me to you").

(** A message dated before the year 1000. *)
Definition msg_year_999 : Message :=
  mk_Message [ ("From", "grace@example.org");
               ("Date", "1 Jan 0999 00:00:00 +0000") ] "old".

End Samples.

Example py_split_ws : Py.split_ws "  Fri,  15 Mar 2024	10:00:00 " = ["Fri,"; "15"; "Mar"; "2024"; "10:00:00"].
Proof. reflexivity. Qed.
Example py_split_chr : Py.split_chr "-" "a--b" = ["a"; ""; "b"].
Proof. reflexivity. Qed.
Example py_int_ex : (Py.int "0500", Py.int "-0000", Py.int "1_0", Py.int "1__0", Py.int "", Py.int "+")
  = (Some 500, Some 0, Some 10, None, None, None).
Proof. reflexivity. Qed.
Example py_fmt_ex : (Py.fmt_0d 4 2024 +:+ Py.fmt_0d 2 3, Py.fmt_0d 4 (-5), Py.fmt_0d 2 123, Py.fmt_d 0)
  = ("202403", "-005", "123", "0").
Proof. vm_compute. reflexivity. Qed.
Example md5_empty : Hashlib.hexdigest "" = "d41d8cd98f00b204e9800998ecf8427e".
Proof. vm_compute. reflexivity. Qed.
Example md5_abc : Hashlib.hexdigest "abc" = "900150983cd24fb0d6963f7d28e17f72".
Proof. vm_compute. reflexivity. Qed.
Example md5_fox :
  Hashlib.hexdigest "The quick brown fox jumps over the lazy dog"
  = "9e107d9d372bb6826bd81d3542a419d6".
Proof. vm_compute. reflexivity. Qed.
Example md5_two_blocks :
  Hashlib.hexdigest "aaaaaaaaaaaaaaaaaaaaaaaaaaaaaaaaaaaaaaaaaaaaaaaaaaaaaaaa"
  = "3b0c8ac703f828b04c6c197006d17218".
Proof. vm_compute. reflexivity. Qed.
Example parsedate_rfc2822 :
  EmailUtils._parsedate_tz "Fri, 15 Mar 2024 10:00:00 +0000"
  = Ok (Some (Datetime.mk_struct_time 2024 3 15 10 0 0, Some 0)).
Proof. vm_compute. reflexivity. Qed.
Example parsedate_no_zone :
  EmailUtils._parsedate_tz "Fri, 15 Mar 2024 10:00:00"
  = Ok (Some (Datetime.mk_struct_time 2024 3 15 10 0 0, None)).
Proof. vm_compute. reflexivity. Qed.
Example parsedate_est :
  EmailUtils._parsedate_tz "31 Dec 2023 23:59:59 EST"
  = Ok (Some (Datetime.mk_struct_time 2023 12 31 23 59 59, Some (-18000))).
Proof. vm_compute. reflexivity. Qed.
Example parsedate_garbage : EmailUtils.parsedate_tz "yesterday" = Ok None.
Proof. vm_compute. reflexivity. Qed.
Example epoch_ord : Datetime.EPOCH_ORD = 719163 /\ Datetime.MAXORDINAL = 3652059.
Proof. vm_compute. split; reflexivity. Qed.
Example utc_of_1710496800 :
  Datetime.utcfromtimestamp 1710496800 = Ok (Datetime.mk_datetime 2024 3 15 10 0 0).
Proof. vm_compute. reflexivity. Qed.

Example mangle_from_ex :
  Archive.mangle_from_ true
    ("From a" +:+ Py.LF +:+ " From b" +:+ Py.LF +:+ "From" +:+ Py.LF
     +:+ ">From c" +:+ Py.LF +:+ "xFrom d" +:+ Py.LF +:+ "From e")
  = ">From a" +:+ Py.LF +:+ " From b" +:+ Py.LF +:+ "From" +:+ Py.LF
    +:+ ">From c" +:+ Py.LF +:+ "xFrom d" +:+ Py.LF +:+ ">From e".
Proof. vm_compute. reflexivity. Qed.
Example mbox_stored_ex :
  Archive.payload (Archive.mbox_stored (Archive.mk_Message [] "hello")) = "hello" +:+ Py.LF /\
  Archive.payload (Archive.mbox_stored (Archive.mk_Message [] ("hello" +:+ Py.LF)))
    = "hello" +:+ Py.LF /\
  Archive.payload (Archive.mbox_stored (Archive.mk_Message [] "")) = "" /\
  Archive.payload (Archive.mbox_stored (Archive.mk_Message [] "From ")) = ">From " +:+ Py.LF /\
  Archive.mbox_stored Samples.msg_new_year = Samples.msg_new_year /\
  Archive.payload (Archive.mbox_stored Samples.msg_from_line)
    = "Hi" +:+ Py.LF +:+ ">From me to you" +:+ Py.LF.
Proof. vm_compute. repeat split; reflexivity. Qed.
Example msg_get_ex :
  Archive.msg_get "date" Samples.msg_march
    = Some (Archive.Text "Fri, 15 Mar 2024 10:00:00 +0000") /\
  Archive.msg_get "Date" Samples.msg_8bit_date
    = Some (Archive.Header ("vendredi 15 f" +:+ String "233" "vrier 2024")) /\
  Archive.str (Archive.Header ("f" +:+ String "233" "vrier"))
    = "f" +:+ Py.REPLACEMENT +:+ "vrier" /\
  Archive.msg_get "Date" Samples.msg_no_date = None.
Proof. vm_compute. repeat split; reflexivity. Qed.

Import Datetime EmailUtils Archive Props Samples.

(** ** Properties of [MailArchive.add] *)

Lemma truthy_false_inv (v : option header_value) :
  truthy v = false -> v = None \/ v = Some (Text "").
Proof. destruct v as [[[|c s]|raw]|]; simpl; intros; (discriminate || auto). Qed.

Lemma utc_of_date_none (d : string) :
  utc_of_date (Text d) = Ok None <-> parsedate_tz d = Ok None.
Proof.
  unfold utc_of_date. destruct (parsedate_tz d) as [[tup|]|e]; simpl.
  - split; [|discriminate].
    destruct (mktime_tz tup) as [t|e]; simpl; [|discriminate].
    destruct (utcfromtimestamp t); simpl; discriminate.
  - tauto.
  - split; discriminate.
Qed.

(** What [add] does once the fingerprint is known to be new. *)
Lemma add_fresh (msg : Message) (a : MailArchive) (w : World) :
  fingerprint msg ∉ seen a ->
  add msg a w =
    let a1 := mk_MailArchive (boxes a) (seen a ∪ {[fingerprint msg]}) in
    match msg_get "Date" msg with
    | None => (Raise UndatedError, a1, w)
    | Some d =>
        match utc_of_date d with
        | Raise e => (Raise e, a1, w)
        | Ok None => (Raise UndatedError, a1, w)
        | Ok (Some dt) =>
            let '(outbox, a2, w2) := _get_box_by_timestamp dt a1 w in
            (Ok (), a2, mbox_add outbox msg w2)
        end
    end.
Proof.
  intros Hnew. unfold add. rewrite bool_decide_eq_false_2 by done.
  destruct (msg_get "Date" msg) as [d|] eqn:Hd; simpl; [|done].
  destruct d as [[|c d]|raw]; simpl; done.
Qed.



Lemma mbox_open_files (name : string) (w : World) :
  (forall n, files (mbox_open name w).2 !!! n = files w !!! n) /\
  (forall n, n <> name -> files (mbox_open name w).2 !! n = files w !! n) /\
  is_Some (files (mbox_open name w).2 !! name).
Proof.
  unfold mbox_open; simpl.
  destruct (files w !! name) as [l|] eqn:Hf.
  - split; [done|]. split; [done|]. rewrite Hf. eauto.
  - split; [|split].
    + intros n. rewrite !lookup_total_alt.
      destruct (decide (n = name)) as [->|Hne].
      * by rewrite lookup_insert_eq, Hf.
      * by rewrite lookup_insert_ne.
    + intros n Hne. by rewrite lookup_insert_ne.
    + rewrite lookup_insert_eq. eauto.
Qed.

(** Obtaining a box never touches the ledger and leaves the messages of
    every file as they are; the box is on the requested file and is the
    one the cache holds afterwards. *)
Lemma get_box_by_name_spec (name : string) (a : MailArchive) (w : World) :
  cache_ok a ->
  forall b a' w', _get_box_by_name name a w = (b, a', w') ->
    mbox_name b = name /\ seen a' = seen a /\ ledger w' = ledger w /\
    boxes a' !! name = Some b /\ cache_ok a' /\
    (forall n, files w' !!! n = files w !!! n) /\
    (forall n, n <> name -> files w' !! n = files w !! n).
Proof.
  intros Hok b a' w'. unfold _get_box_by_name.
  assert (Hins : forall b', mbox_name b' = name ->
            cache_ok (mk_MailArchive (<[name := b']> (boxes a)) (seen a))).
  { intros b' Hb' n b1; simpl.
    destruct (decide (name = n)) as [<-|Hne].
    - rewrite lookup_insert_eq. by intros [= <-].
    - rewrite lookup_insert_ne by done. apply Hok. }
  destruct (mbox_open_files name w) as (H1 & H2 & _).
  destruct (boxes a !! name) as [b0|] eqn:Hb.
  - destruct (Nat.ltb 0 (mbox_len b0 w)) eqn:Hlen.
    + intros [= <- <- <-]. repeat split; auto.
    + destruct (mbox_open name w) as [b1 w1] eqn:Ho.
      assert (mbox_name b1 = name) by (unfold mbox_open in Ho; by inversion Ho).
      intros [= <- <- <-]; simpl in *.
      rewrite lookup_insert_eq. repeat split; auto.
      unfold mbox_open in Ho; by inversion Ho.
  - destruct (mbox_open name w) as [b1 w1] eqn:Ho.
    assert (mbox_name b1 = name) by (unfold mbox_open in Ho; by inversion Ho).
    intros [= <- <- <-]; simpl in *.
    rewrite lookup_insert_eq. repeat split; auto.
    unfold mbox_open in Ho; by inversion Ho.
Qed.

(** C1. A message whose fingerprint is already in the in-memory ledger
    makes [add] signal [DuplicateError], and the call changes nothing:
    the archive object (ledger set and handle cache) and the directory
    (the messages of every partition included) come back as they were. *)
Theorem add_duplicate_changes_nothing (msg : Message) (a : MailArchive) (w : World) :
  fingerprint msg ∈ seen a ->
  forall r a' w', add msg a w = (r, a', w') ->
    r = Raise DuplicateError /\
    seen a' = seen a /\ boxes a' = boxes a /\ files w' = files w /\
    a' = a /\ w' = w.
Proof.
  intros Hin r a' w'. unfold add.
  rewrite bool_decide_eq_true_2 by done.
  intros [= <- <- <-]. repeat split.
Qed.

Lemma add_duplicate_changes_nothing_witness :
  fingerprint msg_march ∈ seen arch_seen_march /\
  (add msg_march arch_seen_march empty_World).1.1 = Raise DuplicateError.
Proof.
  assert (H : fingerprint msg_march ∈ seen arch_seen_march).
  { unfold arch_seen_march; simpl. apply elem_of_singleton_2. reflexivity. }
  split; [exact H|].
  destruct (add msg_march arch_seen_march empty_World) as [[r a'] w'] eqn:E.
  exact (proj1 (add_duplicate_changes_nothing _ _ _ H _ _ _ E)).
Defined.

Lemma add_same_bytes_duplicate (msg msg' : Message) (a : MailArchive) (w : World) :
  as_bytes msg' = as_bytes msg ->
  fingerprint msg ∈ seen a ->
  add msg' a w = (Raise DuplicateError, a, w).
Proof.
  intros Hb Hin. unfold add, fingerprint. rewrite Hb.
  fold (fingerprint msg). by rewrite bool_decide_eq_true_2.
Qed.

(** A [Date] value that holds a byte outside ASCII is handed out as a
    [Header] object, on which the date parser fails with
    [AttributeError]: [add] has recorded the fingerprint by then and
    stores nothing, and the ingestion loop, which does not handle that
    exception, ends there. *)
Lemma add_header_date (msg : Message) (a : MailArchive) (w : World) (raw : string) :
  fingerprint msg ∉ seen a ->
  msg_get "Date" msg = Some (Header raw) ->
  let a' := mk_MailArchive (boxes a) (seen a ∪ {[fingerprint msg]}) in
  add msg a w = (Raise AttributeError, a', w) /\
  forall rest t, process_keys (Ok msg :: rest) a w t = (Raise AttributeError, a', w).
Proof.
  intros Hnew Hd a'.
  assert (Hadd : add msg a w = (Raise AttributeError, a', w)).
  { rewrite add_fresh by done. simpl. by rewrite Hd. }
  split; [done|]. intros rest t. simpl. by rewrite Hadd.
Qed.

(** C2. A message not yet in the ledger whose [Date] header is absent,
    or is text the date parser makes nothing of, makes [add] signal
    [UndatedError]; the directory is left untouched, so the message is in
    no partition; its fingerprint is in the ledger afterwards, so that
    adding the same bytes again, at any later point of the scope, signals
    [DuplicateError]. This is what the claim says. It does not hold of a
    [Date] with a byte outside ASCII, as in [msg_8bit_date], whose date,
    like that of [msg_ascii_date], cannot be determined (the parser
    makes nothing of the text of the value, but it is the [Header]
    object, not its text, that [add] gives to the parser): the
    fingerprint is recorded and nothing is stored, but what [add] raises
    is [AttributeError], which ends the ingestion of the whole source
    file. *)
Theorem add_undated_records_fingerprint :
  (forall msg a w,
      fingerprint msg ∉ seen a ->
      undated msg ->
      exists a',
        add msg a w = (Raise UndatedError, a', w) /\
        boxes a' = boxes a /\
        seen a' = seen a ∪ {[fingerprint msg]} /\
        forall msg' a2 w2,
          as_bytes msg' = as_bytes msg ->
          seen a' ⊆ seen a2 ->
          add msg' a2 w2 = (Raise DuplicateError, a2, w2)) /\
  (forall msg a w raw,
      fingerprint msg ∉ seen a ->
      msg_get "Date" msg = Some (Header raw) ->
      let a' := mk_MailArchive (boxes a) (seen a ∪ {[fingerprint msg]}) in
      add msg a w = (Raise AttributeError, a', w) /\
      (forall msg' a2 w2,
          as_bytes msg' = as_bytes msg ->
          seen a' ⊆ seen a2 ->
          add msg' a2 w2 = (Raise DuplicateError, a2, w2)) /\
      forall rest t,
        process_keys (Ok msg :: rest) a w t = (Raise AttributeError, a', w)) /\
  (add msg_ascii_date arch_fresh empty_World).1.1 = Raise UndatedError /\
  (exists d, msg_get "Date" msg_8bit_date = Some d /\
             truthy (Some d) = true /\ parsedate_tz (str d) = Ok None) /\
  (add msg_8bit_date arch_fresh empty_World).1.1 = Raise AttributeError /\
  process [EntryFile "in.mbox" [Ok msg_8bit_date; Ok msg_march]] empty_World []
    = (Raise AttributeError,
       mk_World ∅ (Some {[fingerprint msg_8bit_date]}) ∅ 0
                [EvDump {[fingerprint msg_8bit_date]}],
       []).
Proof.
  assert (Hdup : forall (msg : Message) (a : MailArchive) msg' a2 w2,
            as_bytes msg' = as_bytes msg ->
            seen a ∪ {[fingerprint msg]} ⊆ seen a2 ->
            add msg' a2 w2 = (Raise DuplicateError, a2, w2)).
  { intros msg a msg' a2 w2 Hb Hsub. apply (add_same_bytes_duplicate msg); [done|].
    apply Hsub. apply elem_of_union_r. by apply elem_of_singleton_2. }
  split_and!.
  - intros msg a w Hnew Hun.
    exists (mk_MailArchive (boxes a) (seen a ∪ {[fingerprint msg]})).
    split; [|split; [done|split; [done|]]].
    + rewrite add_fresh by done. simpl. unfold undated in Hun.
      destruct (msg_get "Date" msg) as [[d|raw]|]; [|done|done].
      apply utc_of_date_none in Hun. by rewrite Hun.
    + intros msg' a2 w2. apply Hdup.
  - intros msg a w raw Hnew Hd a'.
    destruct (add_header_date msg a w raw Hnew Hd) as [Hadd Hloop].
    split; [exact Hadd|]. split; [|exact Hloop].
    intros msg' a2 w2. apply Hdup.
  - vm_compute. reflexivity.
  - eexists. split; [reflexivity|]. split; vm_compute; reflexivity.
  - vm_compute. reflexivity.
  - vm_compute. reflexivity.
Qed.

Lemma add_undated_records_fingerprint_witness :
  (exists a',
      add msg_no_date arch_fresh empty_World = (Raise UndatedError, a', empty_World) /\
      add msg_no_date a' empty_World = (Raise DuplicateError, a', empty_World)) /\
  add msg_8bit_date arch_fresh empty_World
    = (Raise AttributeError,
       mk_MailArchive ∅ (∅ ∪ {[fingerprint msg_8bit_date]}), empty_World).
Proof.
  destruct add_undated_records_fingerprint as (Hundated & Hheader & _).
  split.
  - assert (Hnew : fingerprint msg_no_date ∉ seen arch_fresh) by apply not_elem_of_empty.
    assert (Hun : undated msg_no_date) by exact I.
    destruct (Hundated msg_no_date arch_fresh empty_World Hnew Hun)
      as (a' & Hadd & _ & _ & Hdup).
    exists a'. split; [exact Hadd|].
    apply Hdup; [reflexivity|]. intros x Hx; exact Hx.
  - apply (Hheader msg_8bit_date arch_fresh empty_World
             ("vendredi 15 f" +:+ String "233" "vrier 2024") (not_elem_of_empty _)).
    reflexivity.
Defined.

(** [parsedate_tz] turns a missing zone into offset 0 and otherwise
    agrees with the parser proper. *)
Lemma parsedate_tz_default_zone (d : string) (t : struct_time) :
  _parsedate_tz d = Ok (Some (t, None)) -> parsedate_tz d = Ok (Some (t, 0)).
Proof. unfold parsedate_tz. by intros ->. Qed.

(** The only exception the date parser can raise is the [IndexError] of
    an index into an empty word. *)
Lemma last_chr_raises (s : string) (e : exn) :
  Py.last_chr s = Raise e -> e = IndexError.
Proof.
  induction s as [|c s IH]; simpl; [by intros [= <-]|].
  destruct s; [discriminate|exact IH].
Qed.

Lemma first_chr_raises (s : string) (e : exn) :
  Py.first_chr s = Raise e -> e = IndexError.
Proof. destruct s; simpl; [by intros [= <-]|discriminate]. Qed.

Lemma parse_words_raises (dd mm yy tm tz : string) (e : exn) :
  parse_words dd mm yy tm tz = Raise e -> e = IndexError.
Proof.
  unfold parse_words.
  repeat match goal with
  | |- Ok _ = Raise _ -> _ => discriminate
  | |- context [Py.last_chr ?s] =>
      let E := fresh "E" in
      destruct (Py.last_chr s) eqn:E; simpl;
      [|intros [= <-]; eapply last_chr_raises; eassumption]
  | |- context [Py.first_chr ?s] =>
      let E := fresh "E" in
      destruct (Py.first_chr s) eqn:E; simpl;
      [|intros [= <-]; eapply first_chr_raises; eassumption]
  | |- context [match ?x with _ => _ end] => destruct x; simpl
  end.
Qed.

Lemma _parsedate_tz_raises (d : string) (e : exn) :
  _parsedate_tz d = Raise e -> e = IndexError.
Proof.
  unfold _parsedate_tz.
  destruct (negb _); [discriminate|].
  destruct (Py.split_ws d); [discriminate|].
  destruct (take 5 _) as [|dd [|mm [|yy [|tm [|tz [|]]]]]]; try discriminate.
  apply parse_words_raises.
Qed.

Lemma parsedate_tz_raises (d : string) (e : exn) :
  parsedate_tz d = Raise e -> e = IndexError.
Proof.
  unfold parsedate_tz.
  destruct (_parsedate_tz d) as [[[t tz]|]|e'] eqn:E; simpl; try discriminate.
  intros [= <-]. by eapply _parsedate_tz_raises.
Qed.

(** [utc_of_date] never raises [UndatedError] of its own. *)
Lemma utc_of_date_raises (d : string) (e : exn) :
  utc_of_date (Text d) = Raise e ->
  e = IndexError \/ e = ValueError \/ e = DateRangeError.
Proof.
  unfold utc_of_date.
  destruct (parsedate_tz d) as [[tup|]|e'] eqn:Hp; simpl; [|discriminate|].
  - destruct (mktime_tz tup) as [t|e'] eqn:Hm; simpl.
    + unfold utcfromtimestamp.
      destruct (_ && _); [destruct (ord2ymd _) as [[? ?] ?]; discriminate|].
      simpl. intros [= <-]. auto.
    + intros [= <-]. revert Hm. unfold mktime_tz, timegm, first_of_month_ordinal.
      destruct (negb _); simpl; [intros [= <-]; auto|].
      destruct (negb _); simpl; [intros [= <-]; auto|discriminate].
  - intros [= <-]. left. by eapply parsedate_tz_raises.
Qed.

Lemma utc_of_date_not_repo_error (d : header_value) (e : exn) :
  utc_of_date d = Raise e -> e <> UndatedError /\ e <> DuplicateError.
Proof.
  destruct d as [d|raw].
  - intros Hu. apply utc_of_date_raises in Hu.
    destruct Hu as [->|[->| ->]]; split; discriminate.
  - simpl. intros [= <-]. split; discriminate.
Qed.

Lemma add_undated_iff (msg : Message) (a : MailArchive) (w : World) :
  fingerprint msg ∉ seen a ->
  (add msg a w).1.1 = Raise UndatedError <-> undated msg.
Proof.
  intros Hnew. rewrite add_fresh by done. simpl. unfold undated.
  destruct (msg_get "Date" msg) as [[d|raw]|]; [| |done].
  - rewrite <- utc_of_date_none.
    destruct (utc_of_date (Text d)) as [[dt|]|e] eqn:Hu.
    + destruct (_get_box_by_timestamp dt _ w) as [[b a2] w2]. simpl.
      split; discriminate.
    + done.
    + simpl. split; [|discriminate].
      intros [= ->]. by apply utc_of_date_not_repo_error in Hu as [? _].
  - simpl. split; [discriminate|done].
Qed.

(** ** Routing by UTC month *)

Lemma add_ok_inv (msg : Message) (a : MailArchive) (w : World) a' w' :
  add msg a w = (Ok (), a', w') ->
  (fingerprint msg ∉ seen a) /\
  exists d dt, msg_get "Date" msg = Some d /\ utc_of_date d = Ok (Some dt).
Proof.
  intros Hadd.
  destruct (decide (fingerprint msg ∈ seen a)) as [Hin|Hnew].
  - unfold add in Hadd. rewrite bool_decide_eq_true_2 in Hadd by done.
    discriminate.
  - split; [done|]. rewrite add_fresh in Hadd by done. simpl in Hadd.
    destruct (msg_get "Date" msg) as [d|] eqn:Hd; [|discriminate].
    destruct (utc_of_date d) as [[dt|]|e] eqn:Hu; try discriminate.
    exists d, dt. split; [reflexivity|exact Hu].
Qed.

(** A new message with a date lands at the end of the partition named
    after that date, and nowhere else. *)
Lemma add_lands (msg : Message) (a : MailArchive) (w : World) d dt :
  cache_ok a ->
  fingerprint msg ∉ seen a ->
  msg_get "Date" msg = Some d ->
  utc_of_date d = Ok (Some dt) ->
  exists a' w',
    add msg a w = (Ok (), a', w') /\ cache_ok a' /\
    seen a' = seen a ∪ {[fingerprint msg]} /\
    ledger w' = ledger w /\
    files w' =
      <[partition_name dt := (files w !!! partition_name dt) ++ [mbox_stored msg]]>
        (files w).
Proof.
  intros Hok Hnew Hd Hu. rewrite add_fresh by done. simpl. rewrite Hd, Hu.
  unfold _get_box_by_timestamp.
  destruct (_get_box_by_name _ _ w) as [[b a2] w2] eqn:Hb.
  apply get_box_by_name_spec in Hb; [|done].
  destruct Hb as (Hn & Hs & Hl & _ & Hok2 & Ht & Hne).
  exists a2, (mbox_add b msg w2). repeat split; auto.
  unfold mbox_add, mbox_messages; simpl. rewrite Hn, Ht.
  apply map_eq. intros n. destruct (decide (partition_name dt = n)) as [<-|Hn'].
  - by rewrite !lookup_insert_eq.
  - rewrite !lookup_insert_ne by done. by apply Hne.
Qed.

(** C3. A message that [add] accepts goes to the partition named
    ["%04d%02d" % (year, month)] of its [Date] in UTC, the UTC instant
    being the parsed calendar fields read as seconds since the epoch,
    minus the zone offset. A message dated 2024-03-15 10:00:00 at offset
    0 lands in [202403]; one dated 2023-12-31 23:59:59 at an offset that
    puts it at 2024-01-01 00:00:00 UTC lands in [202401], and so does
    the date [Sun, 31 Dec 2023 23:59:59 -0001], which is still December
    locally. *)
Theorem add_routes_by_utc_month :
  (forall msg a w a' w',
      cache_ok a ->
      add msg a w = (Ok (), a', w') ->
      exists d t z secs dt,
        msg_get "Date" msg = Some (Text d) /\
        parsedate_tz d = Ok (Some (t, z)) /\
        timegm t = Ok secs /\
        utcfromtimestamp (secs - z) = Ok dt /\
        let name := Py.fmt_0d 4 (year dt) +:+ Py.fmt_0d 2 (month dt) in
        files w' = <[name := (files w !!! name) ++ [mbox_stored msg]]> (files w)) /\
  (forall msg a w d,
      cache_ok a ->
      fingerprint msg ∉ seen a ->
      msg_get "Date" msg = Some (Text d) ->
      parsedate_tz d = Ok (Some (mk_struct_time 2024 3 15 10 0 0, 0)) ->
      exists a' w',
        add msg a w = (Ok (), a', w') /\
        files w' =
          <["202403" := (files w !!! "202403") ++ [mbox_stored msg]]> (files w)) /\
  (forall msg a w d,
      cache_ok a ->
      fingerprint msg ∉ seen a ->
      msg_get "Date" msg = Some (Text d) ->
      parsedate_tz d = Ok (Some (mk_struct_time 2023 12 31 23 59 59, -1))
      \/ d = "Sun, 31 Dec 2023 23:59:59 -0001" ->
      exists a' w',
        add msg a w = (Ok (), a', w') /\
        files w' =
          <["202401" := (files w !!! "202401") ++ [mbox_stored msg]]> (files w)).
Proof.
  split; [|split].
  - intros msg a w a' w' Hok Hadd.
    destruct (add_ok_inv _ _ _ _ _ Hadd) as (Hnew & d & dt & Hd & Hu).
    destruct (add_lands msg a w d dt Hok Hnew Hd Hu)
      as (a2 & w2 & Hadd2 & _ & _ & _ & Hf).
    rewrite Hadd in Hadd2. injection Hadd2 as <- <-.
    destruct d as [d|raw]; [|discriminate Hu].
    revert Hu. unfold utc_of_date.
    destruct (parsedate_tz d) as [[[t z]|]|e] eqn:Hp; simpl; try discriminate.
    unfold mktime_tz; simpl.
    destruct (timegm t) as [secs|e] eqn:Hg; simpl; [|discriminate].
    destruct (utcfromtimestamp (secs - z)) as [dt'|e] eqn:Hdt; simpl;
      [|discriminate].
    intros [= ->]. exists d, t, z, secs, dt.
    split; [done|]. split; [done|]. split; [done|]. split; [done|].
    exact Hf.
  - intros msg a w d Hok Hnew Hd Hp.
    destruct (add_lands msg a w (Text d) (mk_datetime 2024 3 15 10 0 0) Hok Hnew Hd)
      as (a' & w' & Hadd & _ & _ & _ & Hf).
    { unfold utc_of_date. rewrite Hp. reflexivity. }
    eauto.
  - intros msg a w d Hok Hnew Hd Hp.
    assert (Hu : exists dt, utc_of_date (Text d) = Ok (Some dt)
                            /\ partition_name dt = "202401").
    { destruct Hp as [Hp| ->].
      - exists (mk_datetime 2024 1 1 0 0 0). unfold utc_of_date.
        rewrite Hp. split; reflexivity.
      - exists (mk_datetime 2024 1 1 0 0 59). split; reflexivity. }
    destruct Hu as (dt & Hu & Hname).
    destruct (add_lands msg a w (Text d) dt Hok Hnew Hd Hu)
      as (a' & w' & Hadd & _ & _ & _ & Hf).
    rewrite Hname in Hf. eauto.
Qed.

Lemma cache_ok_fresh : cache_ok arch_fresh.
Proof. intros name b H. discriminate H. Qed.

Lemma add_routes_by_utc_month_witness :
  (exists a' w',
      add msg_march arch_fresh empty_World = (Ok (), a', w') /\
      files w' = <["202403" := [mbox_stored msg_march]]> ∅) /\
  (exists a' w',
      add msg_new_year arch_fresh empty_World = (Ok (), a', w') /\
      files w' = <["202401" := [mbox_stored msg_new_year]]> ∅).
Proof.
  destruct add_routes_by_utc_month as (_ & Hmarch & Hjan). split.
  - apply (Hmarch msg_march arch_fresh empty_World
             "Fri, 15 Mar 2024 10:00:00 +0000" cache_ok_fresh
             (not_elem_of_empty _)); reflexivity.
  - apply (Hjan msg_new_year arch_fresh empty_World
             "Sun, 31 Dec 2023 23:59:59 -0001" cache_ok_fresh
             (not_elem_of_empty _)); [reflexivity|right; reflexivity].
Defined.

(** ** Dates without a zone *)

(** C7, as the code has it, for a message not yet in the ledger whose
    [Date], if there is one, is text that either fails to parse or
    converts to a UTC date and time. [add] signals [UndatedError] exactly
    when the [Date] header is absent or fails to parse. A [Date] that
    parses but names no zone is not rejected: [parsedate_tz] gives it
    offset 0, so the calendar fields are read as UTC, and [add] stores
    the message in the partition of that year and month. *)
Theorem add_undated_iff_unparsed (msg : Message) (a : MailArchive) (w : World) :
  cache_ok a ->
  fingerprint msg ∉ seen a ->
  undated msg \/ dated msg ->
  ((add msg a w).1.1 = Raise UndatedError <-> undated msg) /\
  (forall d t,
      msg_get "Date" msg = Some (Text d) ->
      _parsedate_tz d = Ok (Some (t, None)) ->
      parsedate_tz d = Ok (Some (t, 0)) /\
      exists secs dt a' w',
        timegm t = Ok secs /\
        utcfromtimestamp secs = Ok dt /\
        add msg a w = (Ok (), a', w') /\
        files w' =
          <[partition_name dt :=
              (files w !!! partition_name dt) ++ [mbox_stored msg]]> (files w)).
Proof.
  intros Hok Hnew Hdom. split; [by apply add_undated_iff|].
  intros d t Hd Hp. pose proof (parsedate_tz_default_zone _ _ Hp) as Hp'.
  split; [done|].
  destruct Hdom as [Hun|(d' & dt & Hd' & Hu)].
  { unfold undated in Hun. rewrite Hd, Hp' in Hun. discriminate Hun. }
  rewrite Hd in Hd'. injection Hd' as <-.
  destruct (add_lands msg a w (Text d) dt Hok Hnew Hd Hu)
    as (a' & w' & Hadd & _ & _ & _ & Hf).
  revert Hu. unfold utc_of_date. rewrite Hp'. simpl. unfold mktime_tz. simpl.
  destruct (timegm t) as [secs|e] eqn:Hg; simpl; [|discriminate].
  rewrite Z.sub_0_r.
  destruct (utcfromtimestamp secs) as [dt'|e] eqn:Hdt; simpl; [|discriminate].
  intros [= ->]. exists secs, dt, a', w'. done.
Qed.

Lemma add_undated_iff_unparsed_witness :
  (add msg_no_date arch_fresh empty_World).1.1 = Raise UndatedError /\
  exists a' w',
    add msg_no_zone arch_fresh empty_World = (Ok (), a', w') /\
    files w' = <["202403" := [mbox_stored msg_no_zone]]> ∅.
Proof.
  split.
  - apply (add_undated_iff_unparsed msg_no_date arch_fresh empty_World
             cache_ok_fresh (not_elem_of_empty _)).
    + left. exact I.
    + exact I.
  - destruct (add_undated_iff_unparsed msg_no_zone arch_fresh empty_World
                cache_ok_fresh (not_elem_of_empty _)) as [_ Hzone].
    + right. exists (Text "Fri, 15 Mar 2024 10:00:00"), (mk_datetime 2024 3 15 10 0 0).
      split; reflexivity.
    + destruct (Hzone "Fri, 15 Mar 2024 10:00:00" (mk_struct_time 2024 3 15 10 0 0))
        as (_ & secs & dt & a' & w' & Hg & Hdt & Hadd & Hf);
        [reflexivity|vm_compute; reflexivity|].
      exists a', w'. split; [exact Hadd|].
      vm_compute in Hg. injection Hg as <-.
      vm_compute in Hdt. injection Hdt as <-.
      exact Hf.
Defined.

(** C7, as stated, fails: [msg_no_zone] is not in the ledger and its
    [Date], [Fri, 15 Mar 2024 10:00:00], parses but carries no zone; the
    claim wants [UndatedError], and [add] stores the message. *)
Lemma add_accepts_date_without_zone :
  ~ (fingerprint msg_no_zone ∉ seen arch_fresh ->
     ((add msg_no_zone arch_fresh empty_World).1.1 = Raise UndatedError
      <-> ~ dated_with_zone msg_no_zone)).
Proof.
  intros H. specialize (H (not_elem_of_empty _)).
  assert (Hz : ~ dated_with_zone msg_no_zone).
  { intros (d & t & z & Hd & Hp). vm_compute in Hd.
    injection Hd as <-. vm_compute in Hp. discriminate. }
  apply H in Hz. vm_compute in Hz. discriminate.
Qed.

(** A date without zone that lies outside the calendar parses, and is
    neither undated nor dated: the conversion raises, and the exception
    is that of the conversion. *)
Example add_date_without_zone_out_of_range :
  _parsedate_tz "1 Jan 99999 00:00:00"
    = Ok (Some (mk_struct_time 99999 1 1 0 0 0, None)) /\
  utc_of_date (Text "1 Jan 99999 00:00:00") = Raise ValueError /\
  add msg_year_99999_no_zone arch_fresh empty_World
    = (Raise ValueError,
       mk_MailArchive ∅ (∅ ∪ {[fingerprint msg_year_99999_no_zone]}), empty_World).
Proof. vm_compute. repeat split; reflexivity. Qed.

(** ** The open/close scope *)

Lemma close_all_spec (bs : list mbox) (w : World) :
  let w' := foldl mbox_close w bs in
  files w' = files w /\ ledger w' = ledger w /\ next_id w' = next_id w /\
  trace w' = trace w ++ ((fun b => EvClose (mbox_id b)) <$> bs) /\
  (forall i, i ∈ live w' <-> i ∈ live w /\ i ∉ mbox_id <$> bs).
Proof.
  revert w. induction bs as [|b bs IH]; intros w; simpl.
  - rewrite app_nil_r. split_and!; auto.
    intros i. split; [|tauto].
    intros Hi; split; [done|]. by intros ?%elem_of_nil.
  - destruct (IH (mbox_close w b)) as (Hf & Hl & Hn & Ht & Hlive).
    rewrite Hf, Hl, Hn, Ht. simpl. rewrite <- app_assoc. simpl.
    split_and!; auto.
    intros i. rewrite Hlive. simpl.
    rewrite elem_of_difference, elem_of_singleton, elem_of_cons. tauto.
Qed.

Lemma exit_spec (a : MailArchive) (w : World) (exc : option exn) :
  (__exit__ a w exc).1 = false /\
  files (__exit__ a w exc).2 = files w /\
  ledger (__exit__ a w exc).2 = Some (seen a) /\
  trace (__exit__ a w exc).2 =
    trace w ++ ((fun b => EvClose (mbox_id b)) <$> (map_to_list (boxes a)).*2)
            ++ [EvDump (seen a)] /\
  (forall name b, boxes a !! name = Some b -> mbox_id b ∉ live (__exit__ a w exc).2).
Proof.
  unfold __exit__; simpl.
  destruct (close_all_spec (map_to_list (boxes a)).*2 w) as (Hf & Hl & Hn & Ht & Hlive).
  rewrite Hf, Ht, <- app_assoc. split_and!; auto.
  intros name b Hb Hin. apply Hlive in Hin as [_ Hni]. apply Hni.
  apply list_elem_of_fmap. exists b. split; [done|].
  apply list_elem_of_fmap. exists (name, b). split; [done|].
  by apply elem_of_map_to_list.
Qed.

(** C5. Whatever the body of a [with MailArchive(...)] block does and
    however it ends, normally or by an exception, [__exit__] runs once
    after it: every handle of the cache is closed, the ledger as the body
    left it is written to the ledger file, and the files are not touched
    otherwise. [__exit__] returns false, so the statement ends the way
    the body did: an exception is raised again to the caller, never
    swallowed. *)
Theorem with_closes_on_every_path {A S : Type}
    (body : MailArchive -> World -> S -> result A * MailArchive * World * S)
    (w : World) (s : S) :
  let '(a0, w0) := __enter__ w in
  let '(r, a1, w1, s1) := body a0 w0 s in
  exists w2,
    with_MailArchive body w s =
      (match r with Ok v => Ok (Some v) | Raise e => Raise e end, w2, s1) /\
    w2 = (__exit__ a1 w1 (match r with Raise e => Some e | Ok _ => None end)).2 /\
    ledger w2 = Some (seen a1) /\
    files w2 = files w1 /\
    (forall name b, boxes a1 !! name = Some b -> mbox_id b ∉ live w2) /\
    trace w2 =
      trace w1 ++ ((fun b => EvClose (mbox_id b)) <$> (map_to_list (boxes a1)).*2)
               ++ [EvDump (seen a1)].
Proof.
  unfold with_MailArchive.
  destruct (__enter__ w) as [a0 w0].
  destruct (body a0 w0 s) as [[[r a1] w1] s1].
  set (exc := match r with Raise e => Some e | Ok _ => None end).
  destruct (exit_spec a1 w1 exc) as (Hfalse & Hf & Hl & Ht & Hlive).
  destruct (__exit__ a1 w1 exc) as [suppress w2]. simpl in *. subst suppress.
  exists w2. split_and!; auto. by destruct r.
Qed.

(** [add] only ever adds to the ledger, and whatever it answers, the
    fingerprint of its message is in the ledger afterwards. *)
Lemma add_seen (msg : Message) (a : MailArchive) (w : World) r a' w' :
  cache_ok a ->
  add msg a w = (r, a', w') ->
  seen a ⊆ seen a' /\ fingerprint msg ∈ seen a' /\ cache_ok a'.
Proof.
  intros Hok Hadd.
  destruct (decide (fingerprint msg ∈ seen a)) as [Hin|Hnew].
  - unfold add in Hadd. rewrite bool_decide_eq_true_2 in Hadd by done.
    injection Hadd as <- <- <-. done.
  - rewrite add_fresh in Hadd by done. simpl in Hadd.
    assert (Hdone : forall e,
      (Raise e, mk_MailArchive (boxes a) (seen a ∪ {[fingerprint msg]}), w)
        = (r, a', w') ->
      seen a ⊆ seen a' /\ fingerprint msg ∈ seen a' /\ cache_ok a').
    { intros e [= <- <- <-]. simpl. split; [apply union_subseteq_l|].
      split; [|exact Hok]. apply elem_of_union_r. by apply elem_of_singleton_2. }
    destruct (msg_get "Date" msg) as [d|] eqn:Hd; [|by eapply Hdone].
    destruct (utc_of_date d) as [[dt|]|e] eqn:Hu; try by eapply Hdone.
    destruct (add_lands msg a w d dt Hok Hnew Hd Hu)
      as (a2 & w2 & Hadd2 & Hok2 & Hs & _).
    rewrite add_fresh in Hadd2 by done. simpl in Hadd2.
    rewrite Hd, Hu in Hadd2. rewrite Hadd2 in Hadd.
    injection Hadd as <- <- <-. rewrite Hs. split; [apply union_subseteq_l|].
    split; [|done]. apply elem_of_union_r. by apply elem_of_singleton_2.
Qed.

(** A message whose fingerprint is new is never answered with
    [DuplicateError]. *)
Lemma add_new_not_duplicate (msg : Message) (a : MailArchive) (w : World) :
  fingerprint msg ∉ seen a ->
  (add msg a w).1.1 <> Raise DuplicateError.
Proof.
  intros Hnew. rewrite add_fresh by done. simpl.
  destruct (msg_get "Date" msg) as [d|]; [|discriminate].
  destruct (utc_of_date d) as [[dt|]|e] eqn:Hu; [|discriminate|].
  - destruct (_get_box_by_timestamp dt _ w) as [[b a2] w2]. discriminate.
  - simpl. intros [= ->]. by apply utc_of_date_not_repo_error in Hu as [_ ?].
Qed.

(** C4. The ledger survives closing and reopening: once [add] has been
    called on a message in a scope, however the rest of that scope goes
    (the ledger only grows) and however it ends, reopening the directory
    restores the ledger, and adding the same bytes in the new scope
    signals [DuplicateError] and changes nothing. A directory without
    ledger file opens with an empty ledger, in which no message is a
    duplicate. *)
Theorem reopen_preserves_deduplication :
  (forall a w exc, seen (__enter__ (__exit__ a w exc).2).1 = seen a) /\
  (forall msg msg' a w r a1 w1 a2 w2 exc,
      cache_ok a ->
      add msg a w = (r, a1, w1) ->
      seen a1 ⊆ seen a2 ->
      as_bytes msg' = as_bytes msg ->
      let '(a3, w3) := __enter__ (__exit__ a2 w2 exc).2 in
      add msg' a3 w3 = (Raise DuplicateError, a3, w3)) /\
  (forall w,
      ledger w = None ->
      seen (__enter__ w).1 = ∅ /\
      forall msg, (add msg (__enter__ w).1 (__enter__ w).2).1.1
                  <> Raise DuplicateError).
Proof.
  split; [|split].
  - intros a w exc. unfold __enter__. simpl. done.
  - intros msg msg' a w r a1 w1 a2 w2 exc Hok Hadd Hsub Hb.
    destruct (__enter__ _) as [a3 w3] eqn:He.
    apply (add_same_bytes_duplicate msg); [done|].
    assert (seen a3 = seen a2) as ->.
    { unfold __enter__ in He. injection He as <- <-. done. }
    apply Hsub. eapply add_seen; eauto.
  - intros w Hl. unfold __enter__; simpl. rewrite Hl; simpl. split; [done|].
    intros msg. apply add_new_not_duplicate. apply not_elem_of_empty.
Qed.

Lemma reopen_preserves_deduplication_witness :
  (let '(r, a1, w1) := add msg_march arch_fresh empty_World in
   let '(a3, w3) := __enter__ (__exit__ a1 w1 None).2 in
   add msg_march a3 w3 = (Raise DuplicateError, a3, w3)) /\
  seen (__enter__ empty_World).1 = ∅.
Proof.
  destruct reopen_preserves_deduplication as (_ & Hre & Hfresh). split.
  - destruct (add msg_march arch_fresh empty_World) as [[r a1] w1] eqn:Hadd.
    apply (Hre msg_march msg_march arch_fresh empty_World r a1 w1 a1 w1 None
             cache_ok_fresh Hadd); [intros x Hx; exact Hx|reflexivity].
  - apply (Hfresh empty_World). reflexivity.
Defined.

(** ** Iteration *)

Lemma for_each_app {X S : Type} (body : X -> S -> result unit * S)
    (l1 l2 : list X) (s : S) :
  for_each body (l1 ++ l2) s =
    match for_each body l1 s with
    | (Ok _, s') => for_each body l2 s'
    | (Raise e, s') => (Raise e, s')
    end.
Proof.
  revert s. induction l1 as [|x l1 IH]; intros s; simpl; [done|].
  destruct (body x s) as [[[]|e] s']; [apply IH|done].
Qed.

Lemma selected_messages_ext (names : list string) (w1 w2 : World) :
  (forall n, files w1 !!! n = files w2 !!! n) ->
  selected_messages names w1 = selected_messages names w2.
Proof.
  intros H. unfold selected_messages. f_equal.
  apply list_fmap_ext. intros _ x _. apply H.
Qed.

(** A loop over the archive is a loop over the messages of the selected
    entries, in listing order; it leaves the ledger and the messages of
    every file alone. *)
Lemma iter_names_spec {S : Type} (body : Message -> S -> result unit * S)
    (names : list string) (a : MailArchive) (w : World) (s : S) :
  cache_ok a ->
  forall r a' w' s', iter_names body names a w s = (r, a', w', s') ->
    (r, s') = for_each body (selected_messages names w) s /\
    cache_ok a' /\ seen a' = seen a /\ ledger w' = ledger w /\
    (forall n, files w' !!! n = files w !!! n).
Proof.
  revert a w s. induction names as [|name names IH]; intros a w s Hok r a' w' s'.
  - simpl. intros [= <- <- <- <-]. done.
  - simpl. unfold selected_messages. simpl.
    destruct (re_match_partition name) eqn:Hm; simpl.
    + destruct (_get_box_by_name name a w) as [[b a1] w1] eqn:Hb.
      apply get_box_by_name_spec in Hb; [|done].
      destruct Hb as (Hn & Hs & Hl & _ & Hok1 & Ht & _).
      rewrite for_each_app. unfold mbox_messages. rewrite Hn, Ht.
      destruct (for_each body (files w !!! name) s) as [[[]|e] s1].
      * intros Hit. apply IH in Hit; [|done].
        destruct Hit as (Hr & Hok' & Hs' & Hl' & Ht').
        split; [by rewrite Hr, (selected_messages_ext names w1 w)|].
        split; [done|]. split; [congruence|]. split; [congruence|].
        intros n. by rewrite Ht', Ht.
      * intros [= <- <- <- <-]. done.
    + apply IH. done.
Qed.

(** C6, at an entry that only begins like a partition. The pattern is
    matched at the start of the name only: in [world_with_strays] the
    iteration skips [notes.txt] and the ledger file, but opens the backup
    copy [202401.bak] as a partition, caches a handle on it, and yields
    its message along with that of the real partition [202403]. *)
Theorem iteration_opens_names_with_partition_prefix :
  re_match_partition "202401.bak" = true /\
  re_match_partition "notes.txt" = false /\
  re_match_partition SEEN_FNAME = false /\
  let '(l, a, w) := messages arch_fresh world_with_strays in
  l ≡ₚ [msg_new_year; msg_march] /\
  is_Some (boxes a !! "202401.bak") /\
  is_Some (boxes a !! "202403") /\
  boxes a !! "notes.txt" = None /\
  boxes a !! SEEN_FNAME = None.
Proof.
  split; [reflexivity|]. split; [reflexivity|]. split; [reflexivity|].
  destruct (messages arch_fresh world_with_strays) as [[l a] w] eqn:E.
  vm_compute in E. injection E as <- <- <-.
  split_and!.
  - first [reflexivity | apply Permutation_swap].
  - vm_compute. eauto.
  - vm_compute. eauto.
  - vm_compute. reflexivity.
  - vm_compute. reflexivity.
Qed.

(** ** Ingestion *)

Lemma occurrences_cons (o o' : result unit) (os : list (result unit)) :
  occurrences o (o' :: os) = (if bool_decide (o' = o) then 1 else 0) + occurrences o os.
Proof.
  unfold occurrences. simpl. destruct (bool_decide (o' = o)); simpl; lia.
Qed.

Lemma aborted_by_cons (o : result unit) (os : list (result unit)) :
  aborts o = false -> aborted_by (o :: os) = aborted_by os.
Proof.
  intros Ho. unfold aborted_by. destruct os as [|o1 os]; simpl.
  - destruct o as [[]|e]; [done|]. simpl in Ho.
    apply negb_false_iff in Ho. by rewrite Ho.
  - done.
Qed.

Lemma tally_eq (t t' : tally) :
  ok t = ok t' -> duplicate t = duplicate t' -> error t = error t' -> t = t'.
Proof. destruct t, t'; simpl; congruence. Qed.

(** The outcome of a key is that of the [try] body of the loop. *)
Lemma attempts_cons (r : result Message) (box : source_box)
    (a : MailArchive) (w : World) :
  attempts (r :: box) a w =
    let '(o, a1, w1) := attempt r a w in
    if aborts o then ([o], a1, w1)
    else let '(os, a2, w2) := attempts box a1 w1 in (o :: os, a2, w2).
Proof. reflexivity. Qed.

Lemma process_keys_from (box : source_box) (a : MailArchive) (w : World) (t : tally) :
  let '(os, a', w') := attempts box a w in
  process_keys box a w t =
    (match aborted_by os with
     | Some e => Raise e
     | None => Ok (tally_after t os)
     end, a', w').
Proof.
  revert a w t. induction box as [|r box IH]; intros a w t;
    [simpl|rewrite attempts_cons; cbn [process_keys]].
  - f_equal. f_equal. f_equal. apply tally_eq; simpl; unfold occurrences; simpl; lia.
  - destruct (attempt r a w) as [[o a1] w1].
    destruct (aborts o) eqn:Ho.
    + destruct o as [[]|e]; [discriminate|]. simpl in Ho.
      apply negb_true_iff in Ho. unfold aborted_by; simpl. rewrite Ho.
      by destruct e.
    + specialize (IH a1 w1).
      destruct (attempts box a1 w1) as [[os a2] w2].
      rewrite (aborted_by_cons _ _ Ho).
      assert (Hstep : forall t', tally_after t' os = tally_after t (o :: os) ->
                process_keys box a1 w1 t' =
                (match aborted_by os with
                 | Some e => Raise e
                 | None => Ok (tally_after t (o :: os))
                 end, a2, w2)).
      { intros t' <-. apply IH. }
      destruct o as [[]|e]; [|destruct e; try discriminate Ho];
        apply Hstep; apply tally_eq; simpl;
        rewrite !occurrences_cons; simpl; lia.
Qed.

Lemma attempts_length (box : source_box) (a : MailArchive) (w : World) :
  (length (attempts box a w).1.1 <= length box)%nat /\
  (aborted_by (attempts box a w).1.1 = None ->
   length (attempts box a w).1.1 = length box).
Proof.
  revert a w. induction box as [|r box IH]; intros a w; [done|].
  rewrite attempts_cons.
  destruct (attempt r a w) as [[o a1] w1].
  destruct (aborts o) eqn:Ho; simpl.
  - split; [lia|]. destruct o as [[]|e]; [discriminate|]. simpl in Ho.
    apply negb_true_iff in Ho. unfold aborted_by; simpl. by rewrite Ho.
  - specialize (IH a1 w1). destruct (attempts box a1 w1) as [[os a2] w2].
    simpl in *. rewrite (aborted_by_cons _ _ Ho). destruct IH as [IH1 IH2].
    split; [lia|]. intros H. by rewrite IH2.
Qed.

(** The attempts of a loop that aborts do not depend on what follows the
    message that made it abort. *)
Lemma attempts_abort_prefix (box : source_box) (a : MailArchive) (w : World) e :
  aborted_by (attempts box a w).1.1 = Some e ->
  exists pre r post,
    box = pre ++ r :: post /\
    length (attempts box a w).1.1 = S (length pre) /\
    forall post', attempts (pre ++ r :: post') a w = attempts box a w.
Proof.
  revert a w. induction box as [|r box IH]; intros a w; [done|].
  rewrite attempts_cons.
  destruct (attempt r a w) as [[o a1] w1] eqn:Ha.
  destruct (aborts o) eqn:Ho; simpl.
  - intros _. exists [], r, box. split; [done|]. split; [done|].
    intros post'. cbn [app]. by rewrite attempts_cons, Ha, Ho.
  - specialize (IH a1 w1). destruct (attempts box a1 w1) as [[os a2] w2] eqn:Hb.
    simpl in *. rewrite (aborted_by_cons _ _ Ho). intros He.
    destruct (IH He) as (pre & r' & post & -> & Hlen & Hind).
    exists (r :: pre), r', post. split; [done|]. split; [simpl; lia|].
    intros post'. cbn [app]. by rewrite attempts_cons, Ha, Ho, Hind.
Qed.

(** C8. The [try] body of the ingestion loop reads the message of a key
    and hands it to [add]; four conditions are handled per message,
    wherever in the body they arise. A key that is not found is skipped:
    the loop goes on with the counts and the archive as they are. A
    message that cannot be decoded adds one to the error count. When
    [add] signals [DuplicateError] the duplicate count goes up by one,
    when it signals [UndatedError] the error count does, and when it
    returns, the OK count does; the loop goes on from the state [add]
    left. Any other exception, of the read or of [add], ends the loop at
    once with that exception: the keys that follow are not looked at.
    For a whole source file this gives: the three counts are the numbers
    of keys that came to the respective outcome, and an exception that
    ends the loop leaves the archive scope (which still closes), logs no
    summary, and ends the entry, be it the file itself or a directory
    the file is found in, and [process]. *)
Theorem process_handles_four_conditions :
  (forall box a w t,
      process_keys (Raise KeyError :: box) a w t = process_keys box a w t) /\
  (forall box a w t,
      process_keys (Raise UnicodeDecodeError :: box) a w t =
        process_keys box a w (mk_tally (ok t) (duplicate t) (error t + 1))) /\
  (forall msg box a w t a' w',
      add msg a w = (Raise DuplicateError, a', w') ->
      process_keys (Ok msg :: box) a w t =
        process_keys box a' w' (mk_tally (ok t) (duplicate t + 1) (error t))) /\
  (forall msg box a w t a' w',
      add msg a w = (Raise UndatedError, a', w') ->
      process_keys (Ok msg :: box) a w t =
        process_keys box a' w' (mk_tally (ok t) (duplicate t) (error t + 1))) /\
  (forall msg box a w t a' w',
      add msg a w = (Ok (), a', w') ->
      process_keys (Ok msg :: box) a w t =
        process_keys box a' w' (mk_tally (ok t + 1) (duplicate t) (error t))) /\
  (forall e,
      e <> KeyError -> e <> UnicodeDecodeError ->
      e <> DuplicateError -> e <> UndatedError ->
      (forall box a w t,
          process_keys (Raise e :: box) a w t = (Raise e, a, w)) /\
      (forall msg box a w t a' w',
          add msg a w = (Raise e, a', w') ->
          process_keys (Ok msg :: box) a w t = (Raise e, a', w'))) /\
  (forall path box w log rest dir walk,
      let '(a0, w0) := __enter__ w in
      let '(os, a1, w1) := attempts box a0 w0 in
      match aborted_by os with
      | None =>
          length os = length box /\
          process_keys box a0 w0 (mk_tally 0 0 0) =
            (Ok (mk_tally (occurrences (Ok ()) os)
                          (occurrences (Raise DuplicateError) os)
                          (occurrences (Raise UnicodeDecodeError) os
                           + occurrences (Raise UndatedError) os)), a1, w1) /\
          process_file path box w log =
            (Ok (), (__exit__ a1 w1 None).2,
             log ++ [summary path
                       (mk_tally (occurrences (Ok ()) os)
                                 (occurrences (Raise DuplicateError) os)
                                 (occurrences (Raise UnicodeDecodeError) os
                                  + occurrences (Raise UndatedError) os))])
      | Some e =>
          e <> KeyError /\ e <> UnicodeDecodeError /\
          e <> DuplicateError /\ e <> UndatedError /\
          last os = Some (Raise e) /\
          (exists pre r post,
              box = pre ++ r :: post /\ length os = S (length pre) /\
              forall post', attempts (pre ++ r :: post') a0 w0 = (os, a1, w1)) /\
          process_keys box a0 w0 (mk_tally 0 0 0) = (Raise e, a1, w1) /\
          process_file path box w log = (Raise e, (__exit__ a1 w1 (Some e)).2, log) /\
          process (EntryFile path box :: rest) w log
            = (Raise e, (__exit__ a1 w1 (Some e)).2, log) /\
          process (EntryDir dir ((path, box) :: walk) :: rest) w log
            = (Raise e, (__exit__ a1 w1 (Some e)).2, log)
      end).
Proof.
  split_and!.
  - done.
  - done.
  - intros msg box a w t a' w' Hadd. simpl. by rewrite Hadd.
  - intros msg box a w t a' w' Hadd. simpl. by rewrite Hadd.
  - intros msg box a w t a' w' Hadd. simpl. by rewrite Hadd.
  - intros e H1 H2 H3 H4. split.
    + intros box a w t. simpl. by destruct e.
    + intros msg box a w t a' w' Hadd. simpl. rewrite Hadd. by destruct e.
  - intros path box w log rest dir walk.
    destruct (__enter__ w) as [a0 w0] eqn:He.
    pose proof (process_keys_from box a0 w0 (mk_tally 0 0 0)) as Hk.
    pose proof (attempts_length box a0 w0) as [_ Hlen].
    pose proof (attempts_abort_prefix box a0 w0) as Hpre.
    destruct (attempts box a0 w0) as [[os a1] w1] eqn:Hat. simpl in *.
    assert (Hfile : process_file path box w log =
      match aborted_by os with
      | Some e => (Raise e, (__exit__ a1 w1 (Some e)).2, log)
      | None => (Ok (), (__exit__ a1 w1 None).2,
                 log ++ [summary path (tally_after (mk_tally 0 0 0) os)])
      end).
    { unfold process_file, with_MailArchive. rewrite He, Hk.
      destruct (aborted_by os) as [e|]; simpl.
      - destruct (__exit__ a1 w1 (Some e)) as [sup w2] eqn:Hx.
        pose proof (exit_spec a1 w1 (Some e)) as [Hsup _]. rewrite Hx in Hsup.
        simpl in Hsup. subst sup. done.
      - destruct (__exit__ a1 w1 None) as [sup w2]. done. }
    destruct (aborted_by os) as [e|] eqn:Hab.
    + assert (Hlast : last os = Some (Raise e) /\ caught e = false).
      { revert Hab. unfold aborted_by. destruct (last os) as [[[]|e']|]; try done.
        destruct (caught e') eqn:Hc; [done|]. by intros [= <-]. }
      destruct Hlast as [Hlast Hc].
      split_and!; try (intros ->; discriminate Hc); try done.
      * exact (Hpre e eq_refl).
      * simpl. by rewrite Hfile.
      * simpl. by rewrite Hfile.
    + split; [exact (Hlen eq_refl)|]. split; [exact Hk|]. exact Hfile.
Qed.

Lemma process_handles_four_conditions_witness :
  (exists a' w',
      add msg_march arch_fresh empty_World = (Ok (), a', w') /\
      forall box t,
        process_keys (Ok msg_march :: box) arch_fresh empty_World t =
          process_keys box a' w' (mk_tally (ok t + 1) (duplicate t) (error t))) /\
  (forall box t,
      process_keys (Ok msg_march :: box) arch_seen_march empty_World t =
        process_keys box arch_seen_march empty_World
                     (mk_tally (ok t) (duplicate t + 1) (error t))) /\
  (forall box t,
      process_keys (Ok msg_8bit_date :: box) arch_fresh empty_World t =
        (Raise AttributeError,
         mk_MailArchive ∅ (∅ ∪ {[fingerprint msg_8bit_date]}), empty_World)).
Proof.
  destruct process_handles_four_conditions
    as (_ & _ & Hdup & _ & Hok & Hother & _).
  split_and!.
  - destruct (add msg_march arch_fresh empty_World) as [[r a'] w'] eqn:Hadd.
    assert (Hr : r = Ok ()).
    { change r with (r, a', w').1.1. rewrite <- Hadd. vm_compute. reflexivity. }
    subst r. exists a', w'. split; [reflexivity|].
    intros box t. by apply Hok.
  - intros box t. apply Hdup.
    apply add_same_bytes_duplicate with (msg := msg_march); [reflexivity|].
    unfold arch_seen_march; simpl. apply elem_of_singleton_2. reflexivity.
  - intros box t.
    destruct (Hother AttributeError) as [_ Hadd]; try discriminate.
    apply Hadd.
    apply (add_header_date msg_8bit_date arch_fresh empty_World
             ("vendredi 15 f" +:+ String "233" "vrier 2024") (not_elem_of_empty _)).
    reflexivity.
Defined.

Example process_tallies :
  (process [EntryFile "in.mbox"
              [Ok msg_march; Ok msg_march; Ok msg_no_date; Raise KeyError;
               Raise UnicodeDecodeError; Ok msg_new_year]] empty_World []).2
  = ["in.mbox: 2 OK, 1 duplicate(s), 2 error(s)"].
Proof. vm_compute. reflexivity. Qed.

Example process_aborts_on_other_errors :
  (process [EntryFile "a.mbox" [Ok msg_march; Raise (OtherError "OSError"); Ok msg_new_year];
            EntryFile "b.mbox" [Ok msg_new_year]] empty_World []).1.1
  = Raise (OtherError "OSError").
Proof. vm_compute. reflexivity. Qed.

(** ** Export *)
Section ExportProperties.

Variable parseaddr : string -> string * string.
Variable getaddresses : list string -> list (string * string).

Abbreviation export_msg := (Archive.export_msg parseaddr getaddresses).
Abbreviation export := (Archive.export parseaddr getaddresses).
Abbreviation row_of := (Props.row_of parseaddr getaddresses).
Abbreviation is_row_of := (Props.is_row_of parseaddr getaddresses).

Lemma export_msg_skip (msg : Message) (output : list string) :
  has_sender msg = false -> export_msg msg output = (Ok (), output).
Proof. unfold has_sender, Archive.export_msg. by intros ->. Qed.

Lemma export_msg_row (msg : Message) (output : list string) sender d dt :
  msg_get "From" msg = Some sender -> sender <> Text "" ->
  msg_get "Date" msg = Some d -> utc_of_date d = Ok (Some dt) ->
  export_msg msg output = (Ok (), output ++ [row_of msg sender dt]).
Proof.
  intros Hf Hne Hd Hu. unfold Archive.export_msg, export_timestamp.
  rewrite Hf, Hd, Hu. simpl.
  destruct sender as [[|c sender]|raw]; [done| |]; simpl;
    unfold export_row, row_of, export_sender, export_recipients;
    by destruct (msg_contains "List-Id" msg).
Qed.

Lemma has_sender_true (msg : Message) :
  has_sender msg = true ->
  exists sender, msg_get "From" msg = Some sender /\ sender <> Text "".
Proof.
  unfold has_sender. destruct (msg_get "From" msg) as [[[|c s]|raw]|]; simpl;
    try discriminate.
  - intros _. by eexists.
  - intros _. by eexists.
Qed.

Lemma for_each_export (l : list Message) (output : list string) :
  Forall dated (List.filter has_sender l) ->
  exists rows,
    for_each export_msg l output = (Ok (), output ++ rows) /\
    Forall2 is_row_of (List.filter has_sender l) rows.
Proof.
  revert output. induction l as [|msg l IH]; intros output Hall; simpl.
  - exists []. rewrite app_nil_r. split; [done|constructor].
  - simpl in Hall. destruct (has_sender msg) eqn:Hs.
    + apply Forall_cons in Hall as [(d & dt & Hd & Hu) Hall].
      destruct (has_sender_true _ Hs) as (sender & Hf & Hne).
      rewrite (export_msg_row msg output sender d dt) by done.
      destruct (IH (output ++ [row_of msg sender dt]) Hall) as (rows & Hfor & Hrows).
      exists (row_of msg sender dt :: rows). rewrite Hfor, <- app_assoc.
      split; [done|]. constructor; [|done].
      by exists sender, d, dt.
    + rewrite export_msg_skip by done. apply IH, Hall.
Qed.

(** [export] is the loop body run over the selected messages, after the
    header, inside a scope that closes whatever happens. *)
Lemma export_unfold (w : World) (output : list string) :
  exists w',
    export w output =
      (match (for_each export_msg (selected_messages (listdir w) w)
                       (output ++ [CSV_HEADER])).1 with
       | Ok _ => Ok (Some ())
       | Raise e => Raise e
       end, w',
       (for_each export_msg (selected_messages (listdir w) w)
                 (output ++ [CSV_HEADER])).2).
Proof.
  unfold Archive.export, with_MailArchive, __enter__, __iter__.
  destruct (iter_names _ _ _ w _) as [[[r a1] w1] out] eqn:Hit.
  apply iter_names_spec in Hit; [|intros n b Hn; discriminate Hn].
  destruct Hit as (Hr & _). rewrite <- Hr. cbn [fst snd].
  pose proof (exit_spec a1 w1 (match r with Raise e => Some e | Ok _ => None end))
    as [Hsup _].
  destruct (__exit__ a1 w1 (match r with Raise e => Some e | Ok _ => None end))
    as [sup w2].
  cbn [fst] in Hsup. subst sup.
  exists w2. by destruct r as [[]|e].
Qed.

Lemma for_each_export_prefix (l : list Message) (output : list string) :
  exists rows, (for_each export_msg l output).2 = output ++ rows.
Proof.
  revert output. induction l as [|msg l IH]; intros output; simpl.
  - exists []. by rewrite app_nil_r.
  - assert (Hstep : exists rows1, forall r out1,
              export_msg msg output = (r, out1) -> out1 = output ++ rows1).
    { unfold Archive.export_msg.
      destruct (negb _); [exists []; intros r out1 [= <- <-]; by rewrite app_nil_r|].
      destruct (export_timestamp msg);
        [eexists [_]|exists []]; intros r out1 [= <- <-]; [done|].
      by rewrite app_nil_r. }
    destruct Hstep as (rows1 & Hstep).
    destruct (export_msg msg output) as [[[]|e] out1] eqn:He;
      specialize (Hstep _ _ eq_refl); subst out1.
    + destruct (IH (output ++ rows1)) as (rows & ->).
      exists (rows1 ++ rows). by rewrite app_assoc.
    + by exists rows1.
Qed.

(** C9. [export] writes the header line [timestamp,sender,recipients,
    size,list] first, whatever follows. It writes no row for a message
    without [From] header, and, the retained messages being dated as
    every message stored by [add] is, one row per retained message, in
    iteration order: the date in UTC as [strftime] prints it, the
    lowercased address part of [From], the lowercased address parts of
    all [To] and then all [Cc] headers joined by blanks, the length of
    the serialized message, and 1 or 0 for the presence of [List-Id],
    joined by commas without quoting. For a single stored message with
    [From: A@X.COM], [To: b@y.com] and no [List-Id], the row reads
    sender [a@x.com], recipients [b@y.com], the size, and list 0. *)
Theorem export_writes_header_and_rows :
  CSV_HEADER = "timestamp,sender,recipients,size,list" +:+ Py.LF /\
  (forall w output, exists rest,
      (export w output).2 = output ++ CSV_HEADER :: rest) /\
  (forall msg, msg_get "From" msg = None -> has_sender msg = false) /\
  (forall w,
      Forall dated (List.filter has_sender (selected_messages (listdir w) w)) ->
      exists w' rows,
        export w [] = (Ok (Some ()), w', CSV_HEADER :: rows) /\
        Forall2 is_row_of
                (List.filter has_sender (selected_messages (listdir w) w)) rows) /\
  (forall w msg d dt,
      selected_messages (listdir w) w = [msg] ->
      msg_get "From" msg = Some (Text "A@X.COM") ->
      (parseaddr "A@X.COM").2 = "A@X.COM" ->
      msg_get_all "To" msg = [Text "b@y.com"] ->
      msg_get_all "Cc" msg = [] ->
      snd <$> getaddresses ["b@y.com"] = ["b@y.com"] ->
      msg_contains "List-Id" msg = false ->
      msg_get "Date" msg = Some d ->
      utc_of_date d = Ok (Some dt) ->
      exists w',
        export w [] =
          (Ok (Some ()), w',
           [CSV_HEADER;
            strftime dt +:+ ",a@x.com,b@y.com,"
            +:+ Py.fmt_d (Z.of_nat (String.length (as_bytes msg)))
            +:+ ",0" +:+ Py.LF])).
Proof.
  split; [reflexivity|]. split; [|split; [|split]].
  - intros w output. destruct (export_unfold w output) as (w' & ->). simpl.
    destruct (for_each_export_prefix (selected_messages (listdir w) w)
                (output ++ [CSV_HEADER])) as (rows & ->).
    exists rows. by rewrite <- app_assoc.
  - intros msg H. unfold has_sender. by rewrite H.
  - intros w Hall. destruct (export_unfold w []) as (w' & ->).
    destruct (for_each_export _ ([] ++ [CSV_HEADER]) Hall) as (rows & -> & Hrows).
    exists w', rows. done.
  - intros w msg d dt Hsel Hf Hp Hto Hcc Hg Hl Hd Hu.
    destruct (export_unfold w []) as (w' & ->). rewrite Hsel. simpl.
    rewrite (export_msg_row msg _ (Text "A@X.COM") d dt) by done.
    exists w'. simpl. do 4 f_equal.
    unfold Props.row_of. cbn [str]. rewrite Hp, Hto, Hcc, Hl. simpl.
    replace ((fun p : string * string => Py.lower p.2) <$> getaddresses ["b@y.com"])
      with (Py.lower <$> (snd <$> getaddresses ["b@y.com"]))
      by (by rewrite <- list_fmap_compose).
    rewrite Hg. reflexivity.
Qed.

End ExportProperties.

Lemma export_writes_header_and_rows_witness :
  exists w',
    Archive.export bare_parseaddr bare_getaddresses world_march [] =
      (Ok (Some ()), w',
       [ "timestamp,sender,recipients,size,list" +:+ Py.LF;
         "2024-03-15 10:00:00,a@x.com,b@y.com,70,0" +:+ Py.LF ]).
Proof.
  destruct (export_writes_header_and_rows bare_parseaddr bare_getaddresses)
    as (_ & _ & _ & _ & Hex).
  apply (Hex world_march msg_march (Text "Fri, 15 Mar 2024 10:00:00 +0000")
             (mk_datetime 2024 3 15 10 0 0)); vm_compute; reflexivity.
Defined.

(** C10. [export] tests the truth value of the [From] value, not the
    presence of the header: a message whose [From] header is there with
    an empty value gets no row, whatever else it contains, exactly as
    the same message stripped of its [From] headers; the output of an
    export is what it would be without that message in the archive. *)
Theorem export_skips_empty_from
    (parseaddr : string -> string * string)
    (getaddresses : list string -> list (string * string))
    (msg : Message) :
  msg_get "From" msg = Some (Text "") ->
  msg_get "From" (without_from msg) = None /\
  (forall output,
      Archive.export_msg parseaddr getaddresses msg output = (Ok (), output) /\
      Archive.export_msg parseaddr getaddresses (without_from msg) output
        = (Ok (), output)) /\
  (forall w l1 l2 output,
      selected_messages (listdir w) w = l1 ++ msg :: l2 ->
      (Archive.export parseaddr getaddresses w output).1.1 =
        match (for_each (Archive.export_msg parseaddr getaddresses) (l1 ++ l2)
                        (output ++ [CSV_HEADER])).1 with
        | Ok _ => Ok (Some ())
        | Raise e => Raise e
        end /\
      (Archive.export parseaddr getaddresses w output).2 =
        (for_each (Archive.export_msg parseaddr getaddresses) (l1 ++ l2)
                  (output ++ [CSV_HEADER])).2).
Proof.
  intros Hf.
  assert (Hnone : msg_get "From" (without_from msg) = None).
  { unfold msg_get, without_from. simpl.
    induction (headers msg) as [|kv l IH]; simpl; [done|].
    destruct (header_is "From" kv) eqn:Hh; simpl; [done|]. by rewrite Hh. }
  assert (Hskip : forall output,
    Archive.export_msg parseaddr getaddresses msg output = (Ok (), output)).
  { intros output. apply export_msg_skip. unfold has_sender. by rewrite Hf. }
  split; [done|]. split.
  - intros output. split; [done|].
    apply export_msg_skip. unfold has_sender. by rewrite Hnone.
  - intros w l1 l2 output Hsel.
    destruct (export_unfold parseaddr getaddresses w output) as (w' & ->).
    rewrite Hsel. cbn [fst snd].
    assert (Heq : for_each (Archive.export_msg parseaddr getaddresses)
                    (l1 ++ msg :: l2) (output ++ [CSV_HEADER])
                  = for_each (Archive.export_msg parseaddr getaddresses)
                    (l1 ++ l2) (output ++ [CSV_HEADER])).
    { rewrite !for_each_app.
      destruct (for_each _ l1 _) as [[[]|e] out1]; [|done].
      simpl. by rewrite Hskip. }
    rewrite Heq. done.
Qed.

Lemma export_skips_empty_from_witness :
  Archive.export_msg bare_parseaddr bare_getaddresses msg_empty_from []
  = (Ok (), []).
Proof.
  apply (export_skips_empty_from bare_parseaddr bare_getaddresses msg_empty_from).
  reflexivity.
Defined.

(** ** The shape of the date column *)

Lemma fmt_d_four_digits (y : Z) :
  1000 <= y <= 9999 -> Py.fmt_d y = Py.fmt_0d 4 y /\ String.length (Py.fmt_d y) = 4%nat.
Proof.
  intros Hy.
  assert (Hall : forallb (fun y => bool_decide (Py.fmt_d y = Py.fmt_0d 4 y
                                   /\ String.length (Py.fmt_d y) = 4%nat))
                         (seqZ 1000 9000) = true) by (vm_compute; reflexivity).
  rewrite forallb_forall in Hall.
  specialize (Hall y). rewrite bool_decide_eq_true in Hall. apply Hall.
  apply list_elem_of_In, elem_of_seqZ. lia.
Qed.

Lemma fmt_0d_two_digits (n : Z) :
  0 <= n <= 99 -> String.length (Py.fmt_0d 2 n) = 2%nat.
Proof.
  intros Hn.
  assert (Hall : forallb (fun n => bool_decide (String.length (Py.fmt_0d 2 n) = 2%nat))
                         (seqZ 0 100) = true) by (vm_compute; reflexivity).
  rewrite forallb_forall in Hall.
  specialize (Hall n). rewrite bool_decide_eq_true in Hall. apply Hall.
  apply list_elem_of_In, elem_of_seqZ. lia.
Qed.

Lemma length_app_string (s1 s2 : string) :
  String.length (s1 +:+ s2) = (String.length s1 + String.length s2)%nat.
Proof. induction s1 as [|c s1 IH]; simpl; [done|]. by rewrite IH. Qed.

(** For a four-digit year the date column is [YYYY-MM-DD HH:MM:SS],
    nineteen characters. *)
Lemma strftime_shape (dt : datetime) :
  1000 <= year dt <= 9999 ->
  0 <= month dt <= 99 -> 0 <= day dt <= 99 -> 0 <= hour dt <= 99 ->
  0 <= minute dt <= 99 -> 0 <= second dt <= 99 ->
  strftime dt =
    Py.fmt_0d 4 (year dt) +:+ "-" +:+ Py.fmt_0d 2 (month dt) +:+ "-"
    +:+ Py.fmt_0d 2 (day dt) +:+ " " +:+ Py.fmt_0d 2 (hour dt) +:+ ":"
    +:+ Py.fmt_0d 2 (minute dt) +:+ ":" +:+ Py.fmt_0d 2 (second dt) /\
  String.length (strftime dt) = 19%nat.
Proof.
  intros Hy Hm Hd Hh Hmi Hs. unfold strftime.
  destruct (fmt_d_four_digits _ Hy) as [Heq Hlen].
  split; [by rewrite Heq|].
  rewrite !length_app_string, Hlen, !fmt_0d_two_digits by done.
  reflexivity.
Qed.

(** ** What one call of [add] can do *)

(** The three ways a call of [add] ends: the fingerprint was known and
    nothing changes; or it is recorded and the call fails, leaving the
    directory and the cache alone; or it is recorded and the message is
    appended to the partition of its month. *)
Lemma add_cases (msg : Message) (a : MailArchive) (w : World) r a' w' :
  cache_ok a ->
  add msg a w = (r, a', w') ->
  (fingerprint msg ∈ seen a /\ r = Raise DuplicateError /\ a' = a /\ w' = w) \/
  ((fingerprint msg ∉ seen a) /\ seen a' = seen a ∪ {[fingerprint msg]} /\
   cache_ok a' /\ ledger w' = ledger w /\
   ((exists e, r = Raise e /\ e <> DuplicateError /\ w' = w /\ boxes a' = boxes a) \/
    (r = Ok () /\
     exists d dt,
       msg_get "Date" msg = Some d /\ utc_of_date d = Ok (Some dt) /\
       files w' =
         <[partition_name dt :=
             (files w !!! partition_name dt) ++ [mbox_stored msg]]> (files w)))).
Proof.
  intros Hok Hadd.
  destruct (decide (fingerprint msg ∈ seen a)) as [Hin|Hnew].
  - left. unfold add in Hadd. rewrite bool_decide_eq_true_2 in Hadd by done.
    by injection Hadd as <- <- <-.
  - right. split; [done|].
    pose proof (add_new_not_duplicate msg a w Hnew) as Hnd.
    rewrite Hadd in Hnd. simpl in Hnd.
    pose proof Hadd as Hadd0.
    rewrite add_fresh in Hadd by done. simpl in Hadd.
    assert (Hfail : forall e,
      (Raise e, mk_MailArchive (boxes a) (seen a ∪ {[fingerprint msg]}), w)
        = (r, a', w') ->
      seen a' = seen a ∪ {[fingerprint msg]} /\ cache_ok a' /\
      ledger w' = ledger w /\
      ((exists e, r = Raise e /\ e <> DuplicateError /\ w' = w /\ boxes a' = boxes a) \/
       (r = Ok () /\
        exists d dt,
          msg_get "Date" msg = Some d /\ utc_of_date d = Ok (Some dt) /\
          files w' =
            <[partition_name dt :=
                (files w !!! partition_name dt) ++ [mbox_stored msg]]> (files w)))).
    { intros e [= <- <- <-]. simpl. split_and!; [done|exact Hok|done|].
      left. exists e. split_and!; [done| |done|done]. by intros ->. }
    destruct (msg_get "Date" msg) as [d|] eqn:Hd; [|by eapply Hfail].
    destruct (utc_of_date d) as [[dt|]|e] eqn:Hu; try by eapply Hfail.
    destruct (add_lands msg a w d dt Hok Hnew Hd Hu)
      as (a2 & w2 & Hadd2 & Hok2 & Hs & Hl & Hf).
    rewrite Hadd2 in Hadd0. injection Hadd0 as <- <- <-.
    split_and!; [done|done|done|]. right. split; [done|]. by exists d, dt.
Qed.

(** ** Invariants through [process] *)

Lemma attempt_keeps (J : gset string -> gmap string (list Message) -> Prop)
    (r : result Message) (a : MailArchive) (w : World) o a' w' :
  kept_by_add J -> cache_ok a -> J (seen a) (files w) ->
  attempt r a w = (o, a', w') ->
  cache_ok a' /\ J (seen a') (files w').
Proof.
  intros HJ Hok Hinv. destruct r as [msg|e]; simpl.
  - intros Hadd. split; [|by eapply HJ].
    by destruct (add_seen msg a w o a' w' Hok Hadd) as (_ & _ & ?).
  - by intros [= <- <- <-].
Qed.

Lemma process_keys_keeps (J : gset string -> gmap string (list Message) -> Prop)
    (box : source_box) :
  kept_by_add J ->
  forall a w t r a' w',
    cache_ok a -> J (seen a) (files w) ->
    process_keys box a w t = (r, a', w') ->
    cache_ok a' /\ J (seen a') (files w').
Proof.
  intros HJ. induction box as [|x box IH]; intros a w t r a' w' Hok Hinv; simpl.
  - by intros [= <- <- <-].
  - destruct (attempt x a w) as [[o a1] w1] eqn:Hat.
    destruct (attempt_keeps J x a w o a1 w1 HJ Hok Hinv Hat) as [Hok1 Hinv1].
    destruct o as [[]|e]; [by apply IH|].
    destruct e; try (by apply IH); by intros [= <- <- <-].
Qed.

(** [process_file] is the loop between [__enter__] and [__exit__]. *)
Lemma process_file_eq (path : string) (box : source_box) (w : World)
    (log : list string) :
  process_file path box w log =
    match process_keys box (mk_MailArchive ∅ (ledger_of w)) w (mk_tally 0 0 0) with
    | (Ok t, a1, w1) => (Ok (), (__exit__ a1 w1 None).2, log ++ [summary path t])
    | (Raise e, a1, w1) => (Raise e, (__exit__ a1 w1 (Some e)).2, log)
    end.
Proof.
  unfold process_file, with_MailArchive, __enter__, ledger_of.
  destruct (process_keys box _ w _) as [[[t|e] a1] w1].
  - by destruct (__exit__ a1 w1 None) as [sup w2].
  - pose proof (exit_spec a1 w1 (Some e)) as [Hsup _].
    destruct (__exit__ a1 w1 (Some e)) as [sup w2].
    cbn [fst] in Hsup. by subst sup.
Qed.

Lemma process_file_keeps (J : gset string -> gmap string (list Message) -> Prop)
    (path : string) (box : source_box) (w : World) (log : list string) r w' log' :
  kept_by_add J ->
  J (ledger_of w) (files w) ->
  process_file path box w log = (r, w', log') ->
  J (ledger_of w') (files w') /\ is_Some (ledger w').
Proof.
  intros HJ Hinv. rewrite process_file_eq.
  destruct (process_keys box _ w _) as [[rk a1] w1] eqn:Hk.
  apply (process_keys_keeps J box HJ) in Hk;
    [|intros n b Hn; discriminate Hn|exact Hinv].
  destruct Hk as [_ Hinv1].
  assert (Hx : forall exc,
    J (ledger_of (__exit__ a1 w1 exc).2) (files (__exit__ a1 w1 exc).2)
    /\ is_Some (ledger (__exit__ a1 w1 exc).2)).
  { intros exc. destruct (exit_spec a1 w1 exc) as (_ & Hf & Hl & _).
    unfold ledger_of. rewrite Hl, Hf. simpl. eauto. }
  destruct rk as [t|e]; intros [= <- <- <-]; [apply (Hx None)|apply (Hx (Some e))].
Qed.

Lemma process_walk_keeps (J : gset string -> gmap string (list Message) -> Prop)
    (walk : list (string * source_box)) :
  kept_by_add J ->
  forall w log r w' log',
    J (ledger_of w) (files w) ->
    process_walk walk w log = (r, w', log') ->
    J (ledger_of w') (files w').
Proof.
  intros HJ. induction walk as [|[path box] walk IH]; intros w log r w' log' Hinv; simpl.
  - by intros [= <- <- <-].
  - destruct (process_file path box w log) as [[rf w1] log1] eqn:Hf.
    apply (process_file_keeps J) in Hf as [Hinv1 _]; [|done|done].
    destruct rf as [[]|e]; [by apply IH|by intros [= <- <- <-]].
Qed.

(** Whatever [add] keeps, [process] keeps, from one closed archive to the
    next, whether it ends normally or by an exception. *)
Lemma process_keeps (J : gset string -> gmap string (list Message) -> Prop)
    (entries : list entry) :
  kept_by_add J ->
  forall w log r w' log',
    J (ledger_of w) (files w) ->
    process entries w log = (r, w', log') ->
    J (ledger_of w') (files w').
Proof.
  intros HJ. induction entries as [|e entries IH]; intros w log r w' log' Hinv; simpl.
  - by intros [= <- <- <-].
  - destruct (process_entry e w log) as [[re w1] log1] eqn:He.
    assert (Hinv1 : J (ledger_of w1) (files w1)).
    { destruct e as [path box|path walk]; simpl in He.
      - by apply (process_file_keeps J) in He as [? _].
      - by apply (process_walk_keeps J) in He. }
    destruct re as [[]|e']; [by apply IH|by intros [= <- <- <-]].
Qed.



Lemma prefix_after_append (fs : gmap string (list Message)) (name : string)
    (msg : Message) (n : string) :
  fs !!! n `prefix_of` <[name := (fs !!! name) ++ [msg]]> fs !!! n.
Proof.
  destruct (decide (name = n)) as [<-|Hne].
  - rewrite lookup_total_insert_eq. by apply prefix_app_r.
  - by rewrite lookup_total_insert_ne.
Qed.


Lemma extends_kept (s0 : gset string) (fs0 : gmap string (list Message)) :
  kept_by_add (extends s0 fs0).
Proof.
  intros msg a w r a' w' Hok [Hs0 Hpre] Hadd.
  destruct (add_cases _ _ _ _ _ _ Hok Hadd)
    as [(_ & _ & -> & ->)|(_ & Hs & _ & _ & [(e & _ & _ & -> & _)|(_ & d & dt & _ & _ & Hf)])].
  - done.
  - split; [|done]. rewrite Hs. by apply union_subseteq_l'.
  - split; [rewrite Hs; by apply union_subseteq_l'|].
    intros n. rewrite Hf. etrans; [apply Hpre|apply prefix_after_append].
Qed.

(** X1. A call of [add] that ends in an exception, whichever it is,
    leaves the archive directory exactly as it was and opens no box: the
    only trace of a rejected message is its fingerprint in the ledger. *)
Theorem add_failure_leaves_directory (msg : Message) (a : MailArchive) (w : World)
    (e : exn) (a' : MailArchive) (w' : World) :
  add msg a w = (Raise e, a', w') ->
  w' = w /\ boxes a' = boxes a /\ seen a ⊆ seen a'.
Proof.
  intros Hadd.
  destruct (decide (fingerprint msg ∈ seen a)) as [Hin|Hnew].
  - unfold add in Hadd. rewrite bool_decide_eq_true_2 in Hadd by done.
    by injection Hadd as <- <- <-.
  - rewrite add_fresh in Hadd by done. simpl in Hadd.
    assert (Hfail : forall e0,
      (@Raise unit e0, mk_MailArchive (boxes a) (seen a ∪ {[fingerprint msg]}), w)
        = (Raise e, a', w') ->
      w' = w /\ boxes a' = boxes a /\ seen a ⊆ seen a').
    { intros e0 [= <- <- <-]. simpl. split_and!; [done|done|].
      apply union_subseteq_l. }
    destruct (msg_get "Date" msg) as [d|]; [|by eapply Hfail].
    destruct (utc_of_date d) as [[dt|]|e0]; try by eapply Hfail.
    destruct (_get_box_by_timestamp dt _ w) as [[b a2] w2]. discriminate.
Qed.

Lemma add_failure_leaves_directory_witness :
  exists a',
    add msg_no_date arch_fresh world_march = (Raise UndatedError, a', world_march).
Proof.
  destruct (add msg_no_date arch_fresh world_march) as [[r a'] w'] eqn:Hadd.
  assert (Hr : r = Raise UndatedError).
  { change r with (r, a', w').1.1. rewrite <- Hadd. vm_compute. reflexivity. }
  subst r. exists a'.
  destruct (add_failure_leaves_directory _ _ _ _ _ _ Hadd) as (-> & _ & _).
  reflexivity.
Defined.





(** X4. [process] only ever appends: whatever the entries hold and
    however it ends, every fingerprint of the ledger file is still in it
    afterwards, and every partition still begins with the messages it
    had, in the same order. *)
Theorem process_only_appends (entries : list entry) (w : World) (log : list string) :
  extends (ledger_of w) (files w)
          (ledger_of (process entries w log).1.2)
          (files (process entries w log).1.2).
Proof.
  destruct (process entries w log) as [[r w'] log'] eqn:Hp.
  apply (process_keeps (extends (ledger_of w) (files w)) entries
           (extends_kept _ _) w log r w' log'); [|exact Hp].
  split; [done|]. intros n. done.
Qed.

(** X5. A message not in the ledger whose [Date] parses but does not
    convert (a year outside 1..9999, or a UTC instant outside that range)
    makes [add] raise the error of the conversion, not [UndatedError]:
    the fingerprint is recorded, nothing is stored, and since the
    ingestion loop does not handle that error, the loop ends there, with
    the messages that follow not attempted. *)
Theorem add_unconvertible_date_escapes (msg : Message) (a : MailArchive) (w : World)
    (d : string) (e : exn) :
  fingerprint msg ∉ seen a ->
  msg_get "Date" msg = Some (Text d) ->
  utc_of_date (Text d) = Raise e ->
  let a' := mk_MailArchive (boxes a) (seen a ∪ {[fingerprint msg]}) in
  add msg a w = (Raise e, a', w) /\
  (e = IndexError \/ e = ValueError \/ e = DateRangeError) /\
  caught e = false /\
  forall rest t, process_keys (Ok msg :: rest) a w t = (Raise e, a', w).
Proof.
  intros Hnew Hd Hu a'.
  assert (Hadd : add msg a w = (Raise e, a', w)).
  { rewrite add_fresh by done. simpl. by rewrite Hd, Hu. }
  pose proof (utc_of_date_raises d e Hu) as He.
  split; [done|]. split; [done|].
  split; [destruct He as [->|[->| ->]]; reflexivity|].
  intros rest t. simpl. rewrite Hadd.
  destruct He as [->|[->| ->]]; reflexivity.
Qed.

Lemma add_unconvertible_date_escapes_witness :
  (process [EntryFile "in.mbox" [Ok msg_year_99999; Ok msg_march]]
           empty_World []).1.1 = Raise ValueError /\
  (add msg_year_99999 arch_fresh empty_World).1.1 = Raise ValueError.
Proof.
  split; [vm_compute; reflexivity|].
  destruct (add_unconvertible_date_escapes msg_year_99999 arch_fresh empty_World
              "1 Jan 99999 00:00:00 +0000" ValueError)
    as (Hadd & _); [apply not_elem_of_empty|reflexivity|vm_compute; reflexivity|].
  by rewrite Hadd.
Defined.

(** X6. [process] handles its entries one after the other and stops at
    the first that raises: processing a list of entries followed by
    another is processing the first list and then, if that did not
    raise, the second from where the first left the directory and the
    log. A directory entry is processed exactly as the files beneath it,
    given one by one as entries. *)
Theorem process_composes :
  (forall es1 es2 w log,
      process (es1 ++ es2) w log =
        match process es1 w log with
        | (Ok _, w1, log1) => process es2 w1 log1
        | (Raise e, w1, log1) => (Raise e, w1, log1)
        end) /\
  (forall path walk w log,
      process [EntryDir path walk] w log =
        process ((fun pb => EntryFile pb.1 pb.2) <$> walk) w log).
Proof.
  split.
  - intros es1. induction es1 as [|e es1 IH]; intros es2 w log; simpl; [done|].
    destruct (process_entry e w log) as [[[[]|e'] w1] log1]; [apply IH|done].
  - intros path walk w log. simpl.
    assert (H : forall w log,
      process_walk walk w log =
        process ((fun pb => EntryFile pb.1 pb.2) <$> walk) w log).
    { clear. induction walk as [|[p b] walk IH]; intros w log; simpl; [done|].
      destruct (process_file p b w log) as [[[[]|e'] w1] log1]; [apply IH|done]. }
    rewrite H.
    by destruct (process _ w log) as [[[[]|e'] w1] log1].
Qed.

(** ** The handle cache *)

(** A miss, or a hit on an empty box, opens a new handle with the next
    identity and caches it under the name; on a hit the handle that was
    cached is released. *)
Lemma get_box_by_name_opens (name : string) (a : MailArchive) (w : World) :
  (forall b, boxes a !! name = Some b -> mbox_len b w = 0%nat) ->
  _get_box_by_name name a w =
    (mk_mbox (next_id w) name,
     mk_MailArchive (<[name := mk_mbox (next_id w) name]> (boxes a)) (seen a),
     match boxes a !! name with
     | Some b0 => mbox_release (mbox_open name w).2 b0
     | None => (mbox_open name w).2
     end).
Proof.
  intros Hempty. unfold _get_box_by_name.
  destruct (boxes a !! name) as [b|] eqn:Hb; [|done].
  by rewrite (Hempty b eq_refl).
Qed.

(** X7. A box obtained before is reused as long as it holds a message:
    no file is opened and nothing changes. A cached box that holds no
    message counts as false, like a missing one: the file is opened
    again under a new handle, which replaces the old one in the cache.
    The old handle, which nothing refers to any more, is closed at once
    by the interpreter, without a call of [close]; the files are as they
    were, the cache is well formed again, and after [__exit__] neither
    handle is open. *)
Theorem get_box_reuses_unless_empty (name : string) (a : MailArchive) (w : World)
    (b : mbox) :
  handles_ok a w ->
  boxes a !! name = Some b ->
  (files w !!! name <> [] -> _get_box_by_name name a w = (b, a, w)) /\
  (files w !!! name = [] ->
   exists b' a' w',
     _get_box_by_name name a w = (b', a', w') /\
     mbox_id b' <> mbox_id b /\
     boxes a' = <[name := b']> (boxes a) /\
     live w' = ({[mbox_id b']} ∪ live w) ∖ {[mbox_id b]} /\
     (mbox_id b ∉ live w') /\ (mbox_id b' ∈ live w') /\
     trace w' = trace w ++ [EvOpen (mbox_id b') name] /\
     (forall n, files w' !!! n = files w !!! n) /\
     handles_ok a' w' /\
     forall exc,
       (mbox_id b ∉ live (__exit__ a' w' exc).2) /\
       (mbox_id b' ∉ live (__exit__ a' w' exc).2)).
Proof.
  intros Hok Hb. destruct (Hok name b Hb) as (Hn & Hlt & Hlive & Huniq).
  split.
  - intros Hne. unfold _get_box_by_name. rewrite Hb.
    unfold mbox_len, mbox_messages. rewrite Hn.
    destruct (files w !!! name); [done|reflexivity].
  - intros Hempty.
    rewrite get_box_by_name_opens.
    2:{ intros b0. rewrite Hb. intros [= <-].
        unfold mbox_len, mbox_messages. by rewrite Hn, Hempty. }
    rewrite Hb.
    set (b' := mk_mbox (next_id w) name).
    set (a' := mk_MailArchive (<[name := b']> (boxes a)) (seen a)).
    set (w' := mbox_release (mbox_open name w).2 b).
    assert (Hlive' : live w' = ({[mbox_id b']} ∪ live w) ∖ {[mbox_id b]}) by done.
    assert (Hnew : mbox_id b' <> mbox_id b) by (simpl; lia).
    assert (Hold : mbox_id b ∉ live w').
    { rewrite Hlive', elem_of_difference, elem_of_singleton. tauto. }
    assert (Hin : mbox_id b' ∈ live w').
    { rewrite Hlive', elem_of_difference, elem_of_singleton. split; [|done].
      apply elem_of_union_l. by apply elem_of_singleton_2. }
    exists b', a', w'. split_and!; try done.
    + intros n. apply (mbox_open_files name w).
    + intros n1 b1 Hb1. simpl in Hb1.
      destruct (decide (name = n1)) as [<-|Hne].
      * rewrite lookup_insert_eq in Hb1. injection Hb1 as <-.
        split_and!; [done|simpl; lia|done|].
        intros n2 b2 Hb2 Hid. simpl in Hb2.
        destruct (decide (name = n2)) as [<-|Hne2]; [done|].
        rewrite lookup_insert_ne in Hb2 by done.
        destruct (Hok n2 b2 Hb2) as (_ & Hlt2 & _). simpl in Hid. lia.
      * rewrite lookup_insert_ne in Hb1 by done.
        destruct (Hok n1 b1 Hb1) as (Hn1 & Hlt1 & Hlive1 & Huniq1).
        split_and!; [done|simpl; lia| |].
        -- rewrite Hlive', elem_of_difference, elem_of_singleton. split.
           ++ by apply elem_of_union_r.
           ++ intros Hid. apply Hne. symmetry. by apply (Huniq n1 b1).
        -- intros n2 b2 Hb2 Hid. simpl in Hb2.
           destruct (decide (name = n2)) as [<-|Hne2].
           ++ rewrite lookup_insert_eq in Hb2. injection Hb2 as <-.
              simpl in Hid. lia.
           ++ rewrite lookup_insert_ne in Hb2 by done. by apply (Huniq1 n2 b2).
    + intros exc. split.
      * unfold __exit__. simpl. intros Hx.
        apply close_all_spec in Hx as [Hx _]. by apply Hold.
      * apply (exit_spec a' w' exc) with (name := name).
        simpl. by rewrite lookup_insert_eq.
Qed.

Lemma handles_ok_empty_partition :
  handles_ok arch_empty_partition world_empty_partition.
Proof.
  intros name b. unfold arch_empty_partition. simpl.
  destruct (decide ("202401" = name)) as [<-|Hne].
  - rewrite lookup_insert_eq. intros [= <-]. simpl.
    split_and!; [done|lia|by apply elem_of_singleton_2|].
    intros name' b'. destruct (decide ("202401" = name')) as [<-|Hne']; [done|].
    rewrite lookup_insert_ne by done. intros H. discriminate H.
  - rewrite lookup_insert_ne by done. intros H. discriminate H.
Qed.

Lemma get_box_reuses_unless_empty_witness :
  exists b' a' w',
    _get_box_by_name "202401" arch_empty_partition world_empty_partition
      = (b', a', w') /\
    mbox_id b' <> 0%nat /\
    (0%nat ∉ live w') /\
    (mbox_id b' ∉ live (__exit__ a' w' None).2).
Proof.
  destruct (get_box_reuses_unless_empty "202401" arch_empty_partition
              world_empty_partition (mk_mbox 0 "202401")
              handles_ok_empty_partition)
    as [_ Hre]; [reflexivity|].
  destruct Hre as (b' & a' & w' & Hget & Hid & _ & _ & Hold & _ & _ & _ & _ & Hexit);
    [reflexivity|].
  exists b', a', w'. split; [exact Hget|]. split; [exact Hid|].
  split; [exact Hold|]. apply Hexit.
Defined.

(** ** Iteration and the directory *)

Lemma get_box_by_name_world (name : string) (a : MailArchive) (w : World) b a' w' :
  is_Some (files w !! name) ->
  _get_box_by_name name a w = (b, a', w') ->
  files w' = files w /\
  forall n, is_Some (boxes a' !! n) <-> is_Some (boxes a !! n) \/ n = name.
Proof.
  intros [l Hl]. unfold _get_box_by_name, mbox_open. rewrite Hl.
  assert (Hins : forall b0 n,
    is_Some (<[name := b0]> (boxes a) !! n) <-> is_Some (boxes a !! n) \/ n = name).
  { intros b0 n. destruct (decide (name = n)) as [<-|Hne].
    - rewrite lookup_insert_eq. split; [by right|eauto].
    - rewrite lookup_insert_ne by done. split; [by left|].
      intros [H|H]; [done|by subst]. }
  destruct (boxes a !! name) as [b0|] eqn:Hb.
  - destruct (Nat.ltb 0 (mbox_len b0 w)).
    + intros [= <- <- <-]. split; [done|]. intros n. split; [by left|].
      intros [H|H]; [done|]. subst n. rewrite Hb. eauto.
    + intros [= <- <- <-]. simpl. split; [done|]. apply Hins.
  - intros [= <- <- <-]. simpl. split; [done|]. apply Hins.
Qed.

(** A loop over the archive opens no file that is not there: it leaves
    the directory as it is, and caches a handle for those of the names
    it gets to that match the pattern, and for no other name. *)
Lemma iter_names_world {S : Type} (body : Message -> S -> result unit * S)
    (names : list string) :
  forall a w s r a' w' s',
    (forall n, n ∈ names -> re_match_partition n = true -> is_Some (files w !! n)) ->
    iter_names body names a w s = (r, a', w', s') ->
    files w' = files w /\
    (forall n, is_Some (boxes a !! n) -> is_Some (boxes a' !! n)) /\
    (forall n, is_Some (boxes a' !! n) ->
       is_Some (boxes a !! n) \/ (n ∈ names /\ re_match_partition n = true)) /\
    (r = Ok () ->
     forall n, n ∈ names -> re_match_partition n = true -> is_Some (boxes a' !! n)).
Proof.
  induction names as [|name names IH]; intros a w s r a' w' s' Hex; simpl.
  - intros [= <- <- <- <-]. split_and!; [done|done|by left|].
    intros _ n Hn. by apply elem_of_nil in Hn.
  - destruct (re_match_partition name) eqn:Hm; simpl.
    + destruct (_get_box_by_name name a w) as [[b a1] w1] eqn:Hb.
      apply get_box_by_name_world in Hb as [Hf1 Hdom1];
        [|apply Hex; [by left|done]].
      destruct (for_each body (mbox_messages b w1) s) as [[[]|e] s1].
      * intros Hit. apply IH in Hit.
        2:{ intros n Hn Hmn. rewrite Hf1. apply Hex; [by right|done]. }
        destruct Hit as (Hf & Hmono & Hdom & Hall).
        split_and!.
        -- congruence.
        -- intros n Hn. apply Hmono, Hdom1. by left.
        -- intros n Hn. apply Hdom in Hn as [Hn|[Hn Hmn]].
           ++ apply Hdom1 in Hn as [Hn| ->]; [by left|].
              right. split; [by left|done].
           ++ right. split; [by right|done].
        -- intros Hr n Hn Hmn. apply elem_of_cons in Hn as [->|Hn].
           ++ apply Hmono, Hdom1. by right.
           ++ by apply Hall.
      * intros [= <- <- <- <-]. split_and!; [done| | |done].
        -- intros n Hn. apply Hdom1. by left.
        -- intros n Hn. apply Hdom1 in Hn as [Hn| ->]; [by left|].
           right. split; [by left|done].
    + intros Hit. apply IH in Hit.
      2:{ intros n Hn Hmn. apply Hex; [by right|done]. }
      destruct Hit as (Hf & Hmono & Hdom & Hall).
      split_and!; [done|done| |].
      * intros n Hn. apply Hdom in Hn as [Hn|[Hn Hmn]]; [by left|].
        right. split; [by right|done].
      * intros Hr n Hn Hmn. apply elem_of_cons in Hn as [->|Hn]; [congruence|].
        by apply Hall.
Qed.

Lemma listdir_matching (w : World) (n : string) :
  n ∈ listdir w /\ re_match_partition n = true <->
  is_Some (files w !! n) /\ re_match_partition n = true.
Proof.
  unfold listdir. rewrite elem_of_app. split.
  - intros [[Hn|Hn] Hm]; split; try done.
    + destruct (ledger w); [|by apply elem_of_nil in Hn].
      apply list_elem_of_singleton in Hn. subst n. discriminate Hm.
    + apply list_elem_of_fmap in Hn as ([n' l] & -> & Hn).
      apply elem_of_map_to_list in Hn. simpl. eauto.
  - intros [[l Hl] Hm]. split; [|done]. right.
    apply list_elem_of_fmap. exists (n, l). split; [done|].
    by apply elem_of_map_to_list.
Qed.

(** The messages selected from the listing are those of the files whose
    name matches the pattern. *)
Lemma elem_of_selected_messages (w : World) (msg : Message) :
  msg ∈ selected_messages (listdir w) w <->
  exists name, re_match_partition name = true /\ msg ∈ files w !!! name.
Proof.
  unfold selected_messages. rewrite list_elem_of_In, in_concat. split.
  - intros (l & Hl & Hmsg). apply list_elem_of_In in Hl, Hmsg.
    apply list_elem_of_fmap in Hl as (name & -> & Hn).
    apply list_elem_of_In, filter_In in Hn as [_ Hm]. eauto.
  - intros (name & Hm & Hmsg). exists (files w !!! name).
    split; [|by apply list_elem_of_In].
    apply list_elem_of_In, list_elem_of_fmap. exists name. split; [done|].
    apply list_elem_of_In, filter_In. split; [|done].
    apply list_elem_of_In. apply listdir_matching. split; [|done].
    rewrite lookup_total_alt in Hmsg.
    destruct (files w !! name); [eauto|]. by apply elem_of_nil in Hmsg.
Qed.

(** X8. Inside a scope, [list(archive)] yields the messages of the files
    whose name matches the pattern, each file in its own order, and no
    other message; it does not change the directory or the ledger, and
    afterwards the cache holds, besides what it held, a handle for every
    matching file and for nothing else. *)
Theorem iteration_yields_matching_files (a : MailArchive) (w : World) :
  cache_ok a ->
  let '(l, a', w') := messages a w in
  l = selected_messages (listdir w) w /\
  (forall msg, msg ∈ l <->
     exists name, re_match_partition name = true /\ msg ∈ files w !!! name) /\
  files w' = files w /\ ledger w' = ledger w /\ seen a' = seen a /\
  forall n, is_Some (boxes a' !! n) <->
            is_Some (boxes a !! n) \/
            (is_Some (files w !! n) /\ re_match_partition n = true).
Proof.
  intros Hok. unfold messages, __iter__.
  destruct (iter_names _ (listdir w) a w []) as [[[r a'] w'] l] eqn:Hit.
  pose proof Hit as Hit2.
  apply iter_names_spec in Hit as (Hr & _ & Hs & Hl & _); [|done].
  apply iter_names_world in Hit2 as (Hf & Hmono & Hdom & Hall).
  2:{ intros n Hn Hm. by apply (listdir_matching w n). }
  assert (Hcollect : forall (ms acc : list Message),
    for_each (fun msg acc => (Ok (), acc ++ [msg])) ms acc = (Ok (), acc ++ ms)).
  { induction ms as [|m ms IH]; intros acc; simpl; [by rewrite app_nil_r|].
    rewrite IH, <- app_assoc. done. }
  rewrite Hcollect in Hr. injection Hr as -> ->. simpl.
  split_and!; [done| |done|done|done|].
  - intros msg. apply elem_of_selected_messages.
  - intros n. split.
    + intros Hn. apply Hdom in Hn as [Hn|Hn]; [by left|].
      right. by apply listdir_matching.
    + intros [Hn|Hn]; [by apply Hmono|].
      apply listdir_matching in Hn as [Hn Hm]. by apply Hall.
Qed.

Lemma iteration_yields_matching_files_witness :
  (messages arch_fresh world_march).1.1 = [msg_march].
Proof.
  pose proof (iteration_yields_matching_files arch_fresh world_march cache_ok_fresh) as H.
  destruct (messages arch_fresh world_march) as [[l a'] w'].
  destruct H as (-> & _). vm_compute. reflexivity.
Defined.

(** ** Export and the directory *)

Lemma export_world
    (parseaddr : string -> string * string)
    (getaddresses : list string -> list (string * string))
    (w : World) (output : list string) :
  files (Archive.export parseaddr getaddresses w output).1.2 = files w /\
  ledger (Archive.export parseaddr getaddresses w output).1.2 = Some (ledger_of w).
Proof.
  unfold Archive.export, with_MailArchive, __enter__, __iter__.
  destruct (iter_names _ _ _ w _) as [[[r a1] w1] out] eqn:Hit.
  pose proof Hit as Hit2.
  apply iter_names_spec in Hit as (_ & _ & Hs & _); [|intros n b Hn; discriminate Hn].
  apply iter_names_world in Hit2 as (Hf & _).
  2:{ intros n Hn Hm. by apply (listdir_matching w n). }
  pose proof (exit_spec a1 w1 (match r with Raise e => Some e | Ok _ => None end))
    as (_ & Hf2 & Hl2 & _).
  destruct (__exit__ a1 w1 (match r with Raise e => Some e | Ok _ => None end))
    as [sup w2].
  cbn [fst snd] in *.
  assert (files w2 = files w /\ ledger w2 = Some (ledger_of w)) as Hres.
  { split; [congruence|]. rewrite Hl2, Hs. done. }
  destruct r as [[]|e]; [done|]. by destruct sup.
Qed.

(** X9. [export] never changes a stored message: the files of the
    directory are the same after it as before, whether it completes or
    fails. It does write the ledger file on its way out: with the
    content it had, or, when there was none, an empty ledger. *)
Theorem export_leaves_messages
    (parseaddr : string -> string * string)
    (getaddresses : list string -> list (string * string))
    (w : World) (output : list string) :
  let w' := (Archive.export parseaddr getaddresses w output).1.2 in
  files w' = files w /\
  ledger w' = Some (default ∅ (ledger w)) /\
  (ledger w = None -> ledger w' = Some ∅).
Proof.
  destruct (export_world parseaddr getaddresses w output) as [Hf Hl].
  simpl. split; [done|]. split; [done|].
  intros Hnone. rewrite Hl. unfold ledger_of. by rewrite Hnone.
Qed.

Lemma export_msg_undated
    (parseaddr : string -> string * string)
    (getaddresses : list string -> list (string * string))
    (msg : Message) (output : list string) :
  has_sender msg = true -> undated msg ->
  Archive.export_msg parseaddr getaddresses msg output = (Raise TypeError, output).
Proof.
  unfold has_sender, undated, Archive.export_msg, export_timestamp.
  intros -> Hun. simpl.
  destruct (msg_get "Date" msg) as [[d|raw]|]; [|done|done].
  apply utc_of_date_none in Hun. by rewrite Hun.
Qed.

(** X10. [export] does not check the date of what it reads: at the first
    stored message that has a sender but no [Date], or a [Date] the
    parser makes nothing of, it fails with [TypeError]. The header and
    the rows of the messages before it have been written, nothing is
    written for that message or for those after it, and the exception
    leaves [export]. *)
Theorem export_stops_at_undated_message
    (parseaddr : string -> string * string)
    (getaddresses : list string -> list (string * string))
    (w : World) (output : list string) (l1 l2 : list Message) (msg : Message) :
  selected_messages (listdir w) w = l1 ++ msg :: l2 ->
  Forall dated (List.filter has_sender l1) ->
  has_sender msg = true ->
  undated msg ->
  exists w' rows,
    Archive.export parseaddr getaddresses w output
      = (Raise TypeError, w', output ++ CSV_HEADER :: rows) /\
    Forall2 (is_row_of parseaddr getaddresses) (List.filter has_sender l1) rows.
Proof.
  intros Hsel Hl1 Hs Hun.
  destruct (export_unfold parseaddr getaddresses w output) as (w' & ->).
  rewrite Hsel, for_each_app.
  destruct (for_each_export parseaddr getaddresses l1 (output ++ [CSV_HEADER]) Hl1)
    as (rows & -> & Hrows).
  simpl. rewrite export_msg_undated by done. simpl.
  exists w', rows. split; [|done]. by rewrite <- app_assoc.
Qed.

Lemma export_stops_at_undated_message_witness :
  exists w',
    Archive.export bare_parseaddr bare_getaddresses world_undated_stored []
    = (Raise TypeError, w',
       [ CSV_HEADER; "2024-03-15 10:00:00,a@x.com,b@y.com,70,0" +:+ Py.LF ]).
Proof.
  destruct (export_stops_at_undated_message bare_parseaddr bare_getaddresses
              world_undated_stored [] [msg_march] [msg_new_year] msg_no_date)
    as (w' & rows & Hex & Hrows).
  - vm_compute. reflexivity.
  - constructor; [|constructor].
    exists (Text "Fri, 15 Mar 2024 10:00:00 +0000"), (mk_datetime 2024 3 15 10 0 0).
    split; reflexivity.
  - reflexivity.
  - exact I.
  - exists w'. rewrite Hex. do 2 f_equal.
    apply Forall2_cons_inv_l in Hrows as (row & rows' & Hrow & Hnil & ->).
    apply Forall2_nil_inv_l in Hnil as ->.
    destruct Hrow as (sender & d & dt & Hf & _ & Hd & Hu & ->).
    injection Hf as <-. injection Hd as <-.
    vm_compute in Hu. injection Hu as <-. vm_compute. reflexivity.
Defined.

(** ** The command line *)




Example main_build_then_export_output :
  let '(r, _, log, stdout) :=
    Run.main bare_parseaddr bare_getaddresses
             [EntryFile "in.mbox" [Ok msg_march; Ok msg_march; Ok msg_no_date]]
             true empty_World [] [] in
  (r, log, stdout)
  = (Ok (), ["in.mbox: 1 OK, 1 duplicate(s), 1 error(s)"],
     [ CSV_HEADER; "2024-03-15 10:00:00,a@x.com,b@y.com,71,0" +:+ Py.LF ]).
Proof. vm_compute. reflexivity. Qed.

(** ** Ingesting the same file again *)

(** After a loop that was not aborted, the ledger holds the fingerprint
    of every message that was read. *)
Lemma process_keys_records (box : source_box) :
  forall a w t t' a' w',
    cache_ok a ->
    process_keys box a w t = (Ok t', a', w') ->
    seen a ⊆ seen a' /\
    Forall (fun r => forall m, r = Ok m -> fingerprint m ∈ seen a') box.
Proof.
  induction box as [|x box IH]; intros a w t t' a' w' Hok; simpl.
  - intros [= <- <- <-]. split; [done|constructor].
  - destruct (attempt x a w) as [[o a1] w1] eqn:Hat.
    assert (Hstep : cache_ok a1 /\ seen a ⊆ seen a1 /\
                    forall m, x = Ok m -> fingerprint m ∈ seen a1).
    { destruct x as [m|e]; simpl in Hat.
      - destruct (add_seen m a w o a1 w1 Hok Hat) as (Hsub & Hin & Hok1).
        split_and!; [done|done|]. by intros m' [= <-].
      - injection Hat as <- <- <-. split_and!; [done|done|]. intros m H. discriminate H. }
    destruct Hstep as (Hok1 & Hsub & Hx).
    assert (Hrest : forall t1,
      process_keys box a1 w1 t1 = (Ok t', a', w') ->
      seen a ⊆ seen a' /\
      Forall (fun r => forall m, r = Ok m -> fingerprint m ∈ seen a') (x :: box)).
    { intros t1 Hk. destruct (IH _ _ _ _ _ _ Hok1 Hk) as [Hsub' Hall].
      split; [by etrans|]. constructor; [|done].
      intros m Hm. apply Hsub'. by apply Hx. }
    destruct o as [[]|e]; [apply Hrest|].
    destruct e; try apply Hrest; discriminate.
Qed.

(** A loop over reads whose messages are all known stores nothing and
    counts every message as a duplicate. *)
Lemma process_keys_all_known (box : source_box) (a : MailArchive) (w : World) :
  Forall plain_read box ->
  Forall (fun r => forall m, r = Ok m -> fingerprint m ∈ seen a) box ->
  forall t,
    process_keys box a w t =
      (Ok (mk_tally (ok t) (duplicate t + readable box) (error t + undecodable box)),
       a, w).
Proof.
  unfold readable, undecodable.
  induction box as [|x box IH]; intros Hplain Hknown t; simpl.
  - do 3 f_equal. apply tally_eq; simpl; lia.
  - apply Forall_cons in Hplain as [Hx Hplain].
    apply Forall_cons in Hknown as [Hkx Hknown].
    destruct x as [m|e]; simpl.
    + unfold add. rewrite bool_decide_eq_true_2 by (by apply Hkx).
      rewrite IH by done. simpl. do 3 f_equal. apply tally_eq; simpl; lia.
    + destruct Hx as [-> | ->]; rewrite IH by done; simpl;
        do 3 f_equal; apply tally_eq; simpl; lia.
Qed.

(** X12. Ingesting a source file a second time stores nothing: if the
    reads of the file give messages, missing keys or decoding failures,
    and a first [process] of it completed, then processing the same
    file again, from the directory the first run left, completes too,
    leaves every partition and the ledger file as they are, and reports
    no message as OK, every message read as a duplicate and every
    decoding failure as an error. *)
Theorem reingestion_stores_nothing (path path' : string) (box : source_box)
    (w : World) (log : list string) :
  Forall plain_read box ->
  let '(r1, w1, log1) := process_file path box w log in
  r1 = Ok () ->
  exists w2,
    process_file path' box w1 log1 =
      (Ok (), w2,
       log1 ++ [summary path' (mk_tally 0 (readable box) (undecodable box))]) /\
    files w2 = files w1 /\ ledger w2 = ledger w1.
Proof.
  intros Hplain. rewrite process_file_eq.
  destruct (process_keys box _ w _) as [[[t1|e] a1] w1'] eqn:Hk; [|discriminate].
  intros _.
  apply process_keys_records in Hk as [_ Hrec]; [|intros n b Hn; discriminate Hn].
  destruct (exit_spec a1 w1' None) as (_ & Hf & Hl & _).
  set (w1 := (__exit__ a1 w1' None).2) in *.
  rewrite process_file_eq.
  assert (Hled : ledger_of w1 = seen a1) by (unfold ledger_of; by rewrite Hl).
  rewrite process_keys_all_known; [|done|by rewrite Hled].
  eexists. split; [reflexivity|].
  destruct (exit_spec (mk_MailArchive ∅ (ledger_of w1)) w1 None) as (_ & Hf2 & Hl2 & _).
  split; [done|]. rewrite Hl2, Hl. cbn [seen]. by rewrite Hled.
Qed.

Lemma reingestion_stores_nothing_witness :
  exists w2,
    process_file "again.mbox" [Ok msg_march; Ok msg_no_date; Raise UnicodeDecodeError]
      (process_file "in.mbox" [Ok msg_march; Ok msg_no_date; Raise UnicodeDecodeError]
                    empty_World []).1.2
      ["in.mbox: 1 OK, 0 duplicate(s), 2 error(s)"]
    = (Ok (), w2,
       ["in.mbox: 1 OK, 0 duplicate(s), 2 error(s)";
        "again.mbox: 0 OK, 2 duplicate(s), 1 error(s)"]).
Proof.
  pose proof (reingestion_stores_nothing "in.mbox" "again.mbox"
                [Ok msg_march; Ok msg_no_date; Raise UnicodeDecodeError]
                empty_World []) as H.
  destruct (process_file "in.mbox" _ empty_World []) as [[r1 w1] log1] eqn:Hp.
  assert (Hr : r1 = Ok () /\ log1 = ["in.mbox: 1 OK, 0 duplicate(s), 2 error(s)"]).
  { change r1 with (r1, w1, log1).1.1. change log1 with (r1, w1, log1).2 at 2.
    rewrite <- Hp. vm_compute. split; reflexivity. }
  destruct Hr as [Hr ->].
  destruct H as (w2 & Hre & _).
  - repeat constructor; by right.
  - exact Hr.
  - exists w2. simpl. rewrite Hre. reflexivity.
Defined.

(** ** The shape of partition names *)

(** The ordinals of the years 1 to 9999 convert to a year in that range,
    a month from 1 to 12 and a day from 1 to 31. *)
Lemma ord2ymd_range (n : Z) :
  1 <= n <= 3652059 ->
  1 <= (ord2ymd n).1.1 <= 9999 /\ 1 <= (ord2ymd n).1.2 <= 12 /\
  1 <= (ord2ymd n).2 <= 31.
Proof.
  intros Hn. unfold ord2ymd.
  change DI400Y with 146097. change DI100Y with 36524. change DI4Y with 1461.
  rewrite Z.shiftr_div_pow2 by lia. change (2 ^ 5) with 32.
  set (n0 := n - 1).
  pose proof (Z.div_mod n0 146097 ltac:(lia)) as E400.
  pose proof (Z.mod_pos_bound n0 146097 ltac:(lia)) as B400.
  set (n400 := n0 / 146097) in *. set (r400 := n0 mod 146097) in *.
  pose proof (Z.div_mod r400 36524 ltac:(lia)) as E100.
  pose proof (Z.mod_pos_bound r400 36524 ltac:(lia)) as B100.
  set (n100 := r400 / 36524) in *. set (r100 := r400 mod 36524) in *.
  pose proof (Z.div_mod r100 1461 ltac:(lia)) as E4.
  pose proof (Z.mod_pos_bound r100 1461 ltac:(lia)) as B4.
  set (n4 := r100 / 1461) in *. set (r4 := r100 mod 1461) in *.
  pose proof (Z.div_mod r4 365 ltac:(lia)) as E1.
  pose proof (Z.mod_pos_bound r4 365 ltac:(lia)) as B1.
  set (n1 := r4 / 365) in *. set (r1 := r4 mod 365) in *.
  pose proof (Z.div_mod (r1 + 50) 32 ltac:(lia)) as Em.
  pose proof (Z.mod_pos_bound (r1 + 50) 32 ltac:(lia)) as Bm.
  set (mo := (r1 + 50) / 32) in *. set (rm := (r1 + 50) mod 32) in *.
  assert (Hn0 : 0 <= n0 <= 3652058) by (subst n0; lia).
  clearbody n0 n400 r400 n100 r100 n4 r4 n1 r1 mo rm.
  destruct (Z.eqb_spec n1 4) as [H14|H14]; simpl; [lia|].
  destruct (Z.eqb_spec n100 4) as [H1004|H1004]; simpl; [lia|].
  assert (Hmo : mo = 1 \/ mo = 2 \/ mo = 3 \/ mo = 4 \/ mo = 5 \/ mo = 6 \/
                mo = 7 \/ mo = 8 \/ mo = 9 \/ mo = 10 \/ mo = 11 \/ mo = 12) by lia.
  destruct ((n1 =? 3) && (negb (n4 =? 24) || (n100 =? 3))) eqn:Hleap;
  destruct Hmo as [->|[->|[->|[->|[->|[->|[->|[->|[->|[->|[->| ->]]]]]]]]]]];
    repeat match goal with
    | |- context [Z.pos ?p - 1] =>
        let v := eval vm_compute in (Z.pos p - 1) in change (Z.pos p - 1) with v
    | |- context [Z.to_nat ?k] =>
        let v := eval vm_compute in (Z.to_nat k) in change (Z.to_nat k) with v
    | |- context [Z.pos ?p =? 2] =>
        let v := eval vm_compute in (Z.pos p =? 2) in change (Z.pos p =? 2) with v
    | |- context [0 =? 2] => change (0 =? 2) with false
    | |- context [2 <? Z.pos ?p] =>
        let v := eval vm_compute in (2 <? Z.pos p) in change (2 <? Z.pos p) with v
    end;
    cbn [nth DAYS_BEFORE_MONTH DAYS_IN_MONTH andb fst snd]; cbv iota;
    repeat match goal with
    | |- context [if ?a <? ?b then _ else _] => destruct (Z.ltb_spec a b)
    end; cbn [fst snd]; try lia.
Qed.

(** What [utcfromtimestamp] returns is a date and time of day. *)
Lemma utcfromtimestamp_range (t : Z) (dt : datetime) :
  utcfromtimestamp t = Ok dt ->
  1 <= year dt <= 9999 /\ 1 <= month dt <= 12 /\ 1 <= day dt <= 31 /\
  0 <= hour dt <= 23 /\ 0 <= minute dt <= 59 /\ 0 <= second dt <= 59.
Proof.
  unfold utcfromtimestamp.
  destruct (_ && _) eqn:Hrange; [|discriminate].
  apply andb_prop in Hrange as [H1 H2].
  apply Z.leb_le in H1, H2. change MAXORDINAL with 3652059 in H2.
  pose proof (ord2ymd_range _ (conj H1 H2)) as Hymd.
  destruct (ord2ymd _) as [[y m] d]. simpl in Hymd.
  intros [= <-]. simpl.
  pose proof (Z.mod_pos_bound t 86400 ltac:(lia)) as Hr.
  set (r := t mod 86400) in *. clearbody r.
  split_and!; try tauto; Z.div_mod_to_equations; lia.
Qed.

Lemma utc_of_date_range (d : header_value) (dt : datetime) :
  utc_of_date d = Ok (Some dt) ->
  1 <= year dt <= 9999 /\ 1 <= month dt <= 12 /\ 1 <= day dt <= 31 /\
  0 <= hour dt <= 23 /\ 0 <= minute dt <= 59 /\ 0 <= second dt <= 59.
Proof.
  destruct d as [d|raw]; [|discriminate].
  unfold utc_of_date.
  destruct (parsedate_tz d) as [[tup|]|e]; simpl; try discriminate.
  destruct (mktime_tz tup) as [t|e]; simpl; [|discriminate].
  destruct (utcfromtimestamp t) as [dt'|e] eqn:Hu; simpl; [|discriminate].
  intros [= <-]. by eapply utcfromtimestamp_range.
Qed.

Lemma partition_name_shape_of (y m : Z) :
  1 <= y <= 9999 -> 1 <= m <= 12 ->
  String.length (Py.fmt_0d 4 y +:+ Py.fmt_0d 2 m) = 6%nat /\
  (re_match_partition (Py.fmt_0d 4 y +:+ Py.fmt_0d 2 m) = true <-> 1000 <= y <= 2999).
Proof.
  intros Hy Hm.
  assert (Hyall : forallb year_digits_ok (seqZ 1 9999) = true) by (vm_compute; reflexivity).
  assert (Hmall : forallb month_digits_ok (seqZ 1 12) = true) by (vm_compute; reflexivity).
  rewrite forallb_forall in Hyall, Hmall.
  specialize (Hyall y). specialize (Hmall m).
  unfold year_digits_ok in Hyall. unfold month_digits_ok in Hmall.
  destruct (Py.fmt_0d 4 y) as [|c0 [|c1 [|c2 [|c3 [|]]]]];
    try (discriminate Hyall; apply list_elem_of_In, elem_of_seqZ; lia).
  destruct (Py.fmt_0d 2 m) as [|c4 [|c5 [|]]];
    try (discriminate Hmall; apply list_elem_of_In, elem_of_seqZ; lia).
  specialize (Hyall ltac:(apply list_elem_of_In, elem_of_seqZ; lia)).
  specialize (Hmall ltac:(apply list_elem_of_In, elem_of_seqZ; lia)).
  apply andb_prop in Hmall as [H4 H5].
  apply andb_prop in Hyall as [Hyall H0].
  apply andb_prop in Hyall as [Hyall H3].
  apply andb_prop in Hyall as [H1 H2].
  split; [reflexivity|].
  cbv [String.append re_match_partition]. rewrite H1, H2, H3, H4, H5.
  rewrite !andb_true_r. apply Bool.eqb_prop in H0. rewrite H0.
  rewrite andb_true_iff, Z.leb_le, Z.leb_le. done.
Qed.

(** X13. The partition a message is stored in always has a name of six
    characters, and the iteration pattern matches that name exactly when
    the UTC year of the message is between 1000 and 2999: a message
    dated before the year 1000 or after 2999 is accepted and stored by
    [add] in a partition that no iteration, hence no export, will ever
    open. *)
Theorem stored_partition_name_shape (msg : Message) (a : MailArchive) (w : World)
    (a' : MailArchive) (w' : World) :
  cache_ok a ->
  add msg a w = (Ok (), a', w') ->
  exists d dt,
    msg_get "Date" msg = Some d /\ utc_of_date d = Ok (Some dt) /\
    1 <= year dt <= 9999 /\ 1 <= month dt <= 12 /\
    mbox_stored msg ∈ files w' !!! partition_name dt /\
    String.length (partition_name dt) = 6%nat /\
    (re_match_partition (partition_name dt) = true <-> 1000 <= year dt <= 2999).
Proof.
  intros Hok Hadd.
  destruct (add_cases _ _ _ _ _ _ Hok Hadd)
    as [(_ & H & _)|(_ & _ & _ & _ & [(e & H & _)|(_ & d & dt & Hd & Hu & Hf)])];
    [discriminate H|discriminate H|].
  exists d, dt. split; [done|]. split; [done|].
  destruct (utc_of_date_range d dt Hu) as (Hy & Hm & _).
  split; [done|]. split; [done|]. split.
  - rewrite Hf, lookup_total_insert_eq. apply elem_of_app. right.
    by apply list_elem_of_singleton.
  - by apply partition_name_shape_of.
Qed.

Lemma stored_partition_name_shape_witness :
  exists a' w',
    add msg_year_999 arch_fresh empty_World = (Ok (), a', w') /\
    files w' !!! "099901" = [mbox_stored msg_year_999] /\
    re_match_partition "099901" = false /\
    (messages a' w').1.1 = [].
Proof.
  destruct (add msg_year_999 arch_fresh empty_World) as [[r a'] w'] eqn:Hadd.
  assert (Hr : r = Ok ()).
  { change r with (r, a', w').1.1. rewrite <- Hadd. vm_compute. reflexivity. }
  subst r. exists a', w'. split; [reflexivity|].
  destruct (stored_partition_name_shape _ _ _ _ _ cache_ok_fresh Hadd)
    as (d & dt & Hd & Hu & _ & _ & Hin & _ & _).
  vm_compute in Hadd. injection Hadd as <- <-.
  split; [vm_compute; reflexivity|]. split; [reflexivity|].
  vm_compute. reflexivity.
Defined.

(** ** What the ledger records *)

Lemma attempt_seen (r : result Message) (a : MailArchive) (w : World) o a' w' :
  cache_ok a ->
  attempt r a w = (o, a', w') ->
  cache_ok a' /\
  seen a' = seen a ∪ read_fingerprints [r].
Proof.
  intros Hok. unfold read_fingerprints. destruct r as [m|e]; simpl.
  - intros Hadd.
    destruct (add_cases _ _ _ _ _ _ Hok Hadd)
      as [(Hin & _ & -> & _)|(_ & Hs & Hok' & _)].
    + split; [done|]. apply set_eq. intros x.
      rewrite !elem_of_union, elem_of_singleton, elem_of_empty.
      split; [by left|]. intros [H|[->|[]]]; done.
    + split; [done|]. rewrite Hs. apply set_eq. intros x.
      rewrite !elem_of_union, elem_of_singleton, elem_of_empty. tauto.
  - intros [= <- <- <-]. split; [done|]. apply set_eq. intros x.
    rewrite elem_of_union, elem_of_empty. tauto.
Qed.

Lemma read_fingerprints_cons (r : result Message) (box : source_box) :
  read_fingerprints (r :: box) = read_fingerprints [r] ∪ read_fingerprints box.
Proof.
  unfold read_fingerprints. destruct r as [m|e]; simpl.
  - apply set_eq. intros x.
    rewrite !elem_of_union, elem_of_singleton, elem_of_empty. tauto.
  - apply set_eq. intros x. rewrite elem_of_union, elem_of_empty. tauto.
Qed.

Lemma process_keys_seen (box : source_box) :
  forall a w t t' a' w',
    cache_ok a ->
    process_keys box a w t = (Ok t', a', w') ->
    seen a' = seen a ∪ read_fingerprints box.
Proof.
  induction box as [|x box IH]; intros a w t t' a' w' Hok; simpl.
  - intros [= <- <- <-]. apply set_eq. intros y.
    unfold read_fingerprints. simpl. rewrite elem_of_union, elem_of_empty. tauto.
  - destruct (attempt x a w) as [[o a1] w1] eqn:Hat.
    destruct (attempt_seen x a w o a1 w1 Hok Hat) as [Hok1 Hs1].
    assert (Hrest : forall t1,
      process_keys box a1 w1 t1 = (Ok t', a', w') ->
      seen a' = seen a ∪ read_fingerprints (x :: box)).
    { intros t1 Hk.
      rewrite (IH _ _ _ _ _ _ Hok1 Hk), Hs1, (read_fingerprints_cons x box).
      apply set_eq. intros y. rewrite !elem_of_union. tauto. }
    destruct o as [[]|e]; [apply Hrest|].
    destruct e; try apply Hrest; discriminate.
Qed.

(** X14. When [process] completes on a source file, the ledger file
    holds what it held before and the fingerprint of every message that
    was read from the source, whether that message was stored, was a
    duplicate or was rejected as undated, and nothing else. *)
Theorem process_file_records_what_it_reads (path : string) (box : source_box)
    (w : World) (log : list string) :
  let '(r, w', log') := process_file path box w log in
  r = Ok () ->
  ledger w' = Some (default ∅ (ledger w) ∪ read_fingerprints box).
Proof.
  rewrite process_file_eq.
  destruct (process_keys box _ w _) as [[[t1|e] a1] w1] eqn:Hk; [|discriminate].
  intros _.
  apply process_keys_seen in Hk; [|intros n b Hn; discriminate Hn].
  destruct (exit_spec a1 w1 None) as (_ & _ & Hl & _).
  rewrite Hl, Hk. reflexivity.
Qed.

Lemma process_file_records_what_it_reads_witness :
  ledger (process_file "in.mbox" [Ok msg_march; Ok msg_no_date; Raise KeyError]
                       empty_World []).1.2
  = Some (∅ ∪ read_fingerprints [Ok msg_march; Ok msg_no_date; Raise KeyError]).
Proof.
  pose proof (process_file_records_what_it_reads "in.mbox"
                [Ok msg_march; Ok msg_no_date; Raise KeyError] empty_World []) as H.
  destruct (process_file "in.mbox" _ empty_World []) as [[r w'] log'] eqn:Hp.
  apply H. change r with (r, w', log').1.1. rewrite <- Hp.
  vm_compute. reflexivity.
Defined.

(** ** What is stored and what is recorded *)









